(** * SecureBank fraud-detection backend: a shallow embedding of [backend/main.py]

    The development follows the source file: the numbers, global state and
    [startup], the [haversine] helper, the request and response schemas, and
    the three routes [health], [get_options] and [predict].

    Numbers.  Python's [int] is [Z].  A Python [float] and a [numpy.float64]
    are IEEE binary64 numbers, and so are Rocq's primitive floats: addition,
    subtraction, multiplication, division, comparison and the square root are
    the kernel's operations on doubles, rounding included, and a decimal
    literal stands for the double nearest to it.  What the code takes from
    libraries is an interface: [math.sin], [math.cos], [math.atan2] and the
    [pow] behind [**] are the fields of [Libm], and the ["mean"] aggregation of
    pandas is the field of [Pandas].

    Effects.  A route returns its outcome (an exception or a response) together
    with the list of data frames it passed to [model.predict_proba]. *)

From Stdlib Require Import ZArith QArith Qround Qabs Qpower Reals Qreals Lqa Lra Lia.
From Stdlib Require PrimFloat FloatOps FloatAxioms.
From stdpp Require Import base option list gmap strings sorting.

Set Default Proof Using "Type".
Set Warnings "-inexact-float".
Local Open Scope Z_scope.

(** ** Numbers *)

(** A numeric cell of the columns zip and city_pop as [DataFrame.to_dict] hands
    it back: an integer, or a float that is a number, given by the rational it
    stands for (no cell of the dataset is missing, so none is NaN). *)
Inductive number : Type :=
  | Int (z : Z)
  | Float (x : Q).

(** [int(x)]: the identity on an [int], truncation toward zero on a [float]. *)
Definition py_int (n : number) : Z :=
  match n with
  | Int z => z
  | Float x => Z.quot (Qnum x) (Zpos (Qden x))
  end.

(** [round(x)] with no [ndigits], on the number [x] that a finite double
    stands for: the nearest integer, a tie going to the even one.  The result
    is an [int], so the enclosing [int(...)] of the source is the identity. *)
Definition py_round (x : Q) : Z :=
  let f := Qfloor x in
  match (x - inject_Z f ?= 1 # 2)%Q with
  | Lt => f
  | Gt => f + 1
  | Eq => if Z.even f then f else f + 1
  end.

(** ** Binary64 numbers and the numerical helpers *)

(** The numerical steps of the source on doubles.  [math.sin], [math.cos],
    [math.atan2] and the [pow] behind [**] belong to the platform's C library:
    they are the fields of the interface [Libm]. *)
Module Binary64.
Import PrimFloat FloatOps.
Local Open Scope float_scope.

(** The number a finite double stands for: its signed integer mantissa times
    a power of two. *)
Definition SF2Q (f : SpecFloat.spec_float) : Q :=
  match f with
  | SpecFloat.S754_finite s m e =>
      ((if s then -1 else 1) * inject_Z (Zpos m) * Qpower 2 e)%Q
  | _ => 0%Q
  end.

Definition B2Q (x : float) : Q := SF2Q (Prim2SF x).

(** The constraint [gt=0] on a double: [amount > 0]. *)
Definition gt_zero (amount : float) : bool := 0 <? amount.

(** [int(round(proba * 100))], the product taken in binary64 and its finite
    result rounded to the nearest integer, a tie going to the even one. *)
Definition risk_score_of (proba : float) : Z := py_round (B2Q (proba * 100)).

(** [math.pi], the double nearest to the real number. *)
Definition pi : float := 0x1.921fb54442d18p+1.

(** [math.radians]: [x * (pi / 180.0)]. *)
Definition radians (x : float) : float := x * (pi / 180).

(** [math.sqrt]: [None] stands for [ValueError: math domain error]. *)
Definition math_sqrt (x : float) : option float :=
  if x <? 0 then None else Some (sqrt x).

Class Libm : Type := mkLibm {
  m_sin : float -> float;
  m_cos : float -> float;
  m_pow : float -> float -> float;
  m_atan2 : float -> float -> float
}.

(** The intermediate value [a] of [haversine], on coordinates in radians. *)
Definition haversine_a `{Libm} (lat1 lon1 lat2 lon2 : float) : float :=
  let dlat := lat2 - lat1 in
  let dlon := lon2 - lon1 in
  m_pow (m_sin (dlat / 2)) 2 + m_cos lat1 * m_cos lat2 * m_pow (m_sin (dlon / 2)) 2.

(** [haversine]: distance in km between two lat/lon points (degrees). *)
Definition haversine `{Libm} (lat1 lon1 lat2 lon2 : float) : option float :=
  let R0 := 6371 in
  let lat1 := radians lat1 in
  let lon1 := radians lon1 in
  let lat2 := radians lat2 in
  let lon2 := radians lon2 in
  let a := haversine_a lat1 lon1 lat2 lon2 in
  sa ← math_sqrt a;
  sb ← math_sqrt (1 - a);
  let c := 2 * m_atan2 sa sb in
  Some (R0 * c).

(** A C library that is only a table: the doubles nearest to the exact sine,
    cosine and square at the six arguments [haversine 8 0 (-8) 180] asks for
    (which is what glibc returns there), and zero elsewhere. *)
Definition libm_table : Libm :=
  {| m_sin := fun x =>
       if x =? -0x1.1df46a2529d39p-3 then -0x1.1d06c968d9e19p-3
       else if x =? 0x1.921fb54442d18p+0 then 1
       else 0;
     m_cos := fun x =>
       if abs x =? 0x1.1df46a2529d39p-3 then 0x1.fb046a930947ap-1 else 0;
     m_pow := fun x y =>
       if x =? -0x1.1d06c968d9e19p-3 then 0x1.3d581ca184804p-6
       else if x =? 1 then 1
       else 0;
     m_atan2 := fun _ _ => 0 |}.

(** A C library of small-angle approximations: the sine of [x] is [x], the
    cosine is 1, the arc tangent of [y / x] is [y / x], and the square is the
    rounded product.  Its sine is odd and its square is even. *)
Definition libm_small_angle : Libm :=
  {| m_sin := fun x => x;
     m_cos := fun _ => 1;
     m_pow := fun x _ => x * x;
     m_atan2 := fun y x => y / x |}.

(** [y] is a double nearest to the real number [t]: [t] lies between the
    midpoint of [y] and the double below it and the midpoint of [y] and the
    double above it. *)
Definition nearest (t : R) (y : float) : Prop :=
  (Q2R ((B2Q (next_down y) + B2Q y) / 2) <= t
   <= Q2R ((B2Q y + B2Q (next_up y)) / 2))%R.

(** Partial sums of the sine and cosine series on rationals, to enclose the
    real sine and cosine of a double. *)
Fixpoint zfact (n : nat) : Z :=
  match n with
  | O => 1%Z
  | S k => (Z.of_nat (S k) * zfact k)%Z
  end.

Fixpoint qpow (q : Q) (n : nat) : Q :=
  match n with
  | O => 1%Q
  | S k => (q * qpow q k)%Q
  end.

Definition sin_term_Q (q : Q) (i : nat) : Q :=
  (qpow (-1) i * (qpow q (2 * i + 1) / inject_Z (zfact (2 * i + 1))))%Q.

Definition cos_term_Q (q : Q) (i : nat) : Q :=
  (qpow (-1) i * (qpow q (2 * i) / inject_Z (zfact (2 * i))))%Q.

Fixpoint sum_Q (f : nat -> Q) (n : nat) : Q :=
  match n with
  | O => f O
  | S k => (sum_Q f k + f (S k))%Q
  end.

(** The state of the rounding of a mantissa [m0] after [k] one-bit shifts: the
    mantissa of the shift record is [m0 / 2 ^ k], and its round and sticky bits
    are clear when no set bit was shifted out. *)
Definition shifted (m0 k : Z) (mrs : SpecFloat.shr_record) : Prop :=
  SpecFloat.shr_m mrs = (m0 / 2 ^ k)%Z
  /\ ((m0 mod 2 ^ k = 0)%Z ->
      SpecFloat.shr_r mrs = false /\ SpecFloat.shr_s mrs = false).

(** [numpy.rint]: the integer nearest to a double, as a double, a tie going to
    the even integer and the sign being kept; a double whose exponent is not
    negative is an integer already. *)
Definition rint (x : float) : float :=
  match Prim2SF x with
  | SpecFloat.S754_finite s m e =>
      if (0 <=? e)%Z then x
      else
        match py_round (SF2Q (SpecFloat.S754_finite s m e)) with
        | Z0 => if s then -0 else 0
        | Zpos n => SF2Prim (SpecFloat.S754_finite false n 0)
        | Zneg n => SF2Prim (SpecFloat.S754_finite true n 0)
        end
  | _ => x
  end.

(** numpy's [power_of_ten]: 1 multiplied by 10 [n] times, which is [10 ** n]
    exactly up to [n = 22]. *)
Fixpoint power_of_ten (n : nat) : float :=
  match n with
  | O => 1
  | S k => power_of_ten k * 10
  end.

(** [round(x, ndigits)] on a [numpy.float64], for [ndigits >= 0]: numpy
    multiplies by the power of ten, rounds to an integer and divides again,
    each step in binary64. *)
Definition round_ndigits (x : float) (ndigits : nat) : float :=
  let f := power_of_ten ndigits in
  rint (x * f) / f.
End Binary64.

(** [groupby(...).agg("mean")] belongs to pandas: the mean of the doubles of a
    group, in the order of the rows. *)
Class Pandas : Type := mkPandas {
  mean : list PrimFloat.float -> PrimFloat.float
}.

Section Service.
Import PrimFloat FloatOps Binary64.

(** ** Global state populated at startup *)

(** An entry of [city_lookup]: [{lat, long, state, zip, city_pop}]. *)
Record CityInfo : Type := mkCityInfo {
  ci_lat : float;
  ci_long : float;
  ci_state : string;
  ci_zip : number;
  ci_city_pop : number
}.

(** An entry of [merchant_lookup]: [{merch_lat, merch_long}]. *)
Record MerchantInfo : Type := mkMerchantInfo {
  mi_merch_lat : float;
  mi_merch_long : float
}.

(** A cell of the one-row data frame built by [predict]. *)
Inductive cell : Type :=
  | CStr (s : string)
  | CInt (z : Z)
  | CFloat (x : float).

(** [pd.DataFrame([feature_dict])]: the columns in insertion order, each with
    the cell of the single row. *)
Definition DataFrame : Type := list (string * cell).

(** The loaded CatBoost model, seen through its one use:
    [model.predict_proba(df_input)[0][1]], the probability of class 1. *)
Definition CatBoostClassifier : Type := DataFrame -> float.

Record ServiceState : Type := mkServiceState {
  model : option CatBoostClassifier;
  city_lookup : gmap string CityInfo;
  merchant_lookup : gmap string MerchantInfo;
  available_merchants : list string;
  available_categories : list string;
  available_cities : list string
}.

(** The module-level initial values: [model = None], empty tables and lists. *)
Definition initial_state : ServiceState :=
  {| model := None;
     city_lookup := ∅;
     merchant_lookup := ∅;
     available_merchants := [];
     available_categories := [];
     available_cities := [] |}.

(** [startup]: the model read from [MODEL_PATH] and the pandas aggregates of
    the dataset ([groupby(...).agg(...).to_dict(orient="index")] and the sorted
    [unique()] columns) are the arguments; the function is the assignment of
    the globals. *)
Definition startup (loaded : CatBoostClassifier)
    (city_group : gmap string CityInfo)
    (merch_group : gmap string MerchantInfo)
    (merchants categories cities : list string) : ServiceState :=
  {| model := Some loaded;
     city_lookup := city_group;
     merchant_lookup := merch_group;
     available_merchants := merchants;
     available_categories := categories;
     available_cities := cities |}.

(** ** Schemas *)

Record TransactionRequest : Type := mkTransactionRequest {
  amount : float;
  merchant : string;
  category : string;
  city : string
}.

Record PredictionResponse : Type := mkPredictionResponse {
  risk_score : Z;
  probability : float;
  risk_level : string;
  decision : string
}.

(** One entry of a validation error: the field it is about and what is wrong
    with it. *)
Inductive issue : Type :=
  | Missing (loc : string)
  | WrongType (loc : string)
  | NotGreaterThan (loc : string) (bound : Z).

(** What a route can raise. *)
Inductive exn : Type :=
  | HTTPException (status_code : Z) (detail : string)
  | RequestValidationError (errors : list issue)
  | ValueError (msg : string)
  | OverflowError (msg : string).

(** The HTTP status the framework answers with. *)
Definition status_of (e : exn) : Z :=
  match e with
  | HTTPException status_code _ => status_code
  | RequestValidationError _ => 422
  | ValueError _ => 500
  | OverflowError _ => 500
  end.

(** What a decoded JSON body holds under one of the four keys: nothing, a
    value that pydantic does not accept for the declared type (a null, a
    string that is no number for a [float]), or a value of the declared
    type. *)
Inductive input (A : Type) : Type :=
  | Absent
  | Invalid
  | Valid (a : A).
#[global] Arguments Absent {A}.
#[global] Arguments Invalid {A}.
#[global] Arguments Valid {A} a.

Record RequestBody : Type := mkRequestBody {
  body_amount : input float;
  body_merchant : input string;
  body_category : input string;
  body_city : input string
}.

(** [amount: float = Field(..., gt=0)]: required, a float, and strictly
    positive. *)
Definition check_amount (v : input float) : list issue :=
  match v with
  | Absent => [Missing "amount"]
  | Invalid => [WrongType "amount"]
  | Valid a => if gt_zero a then [] else [NotGreaterThan "amount" 0]
  end.

(** [x: str = Field(...)]: required, a string; no other constraint is
    declared. *)
Definition check_str (loc : string) (v : input string) : list issue :=
  match v with
  | Absent => [Missing loc]
  | Invalid => [WrongType loc]
  | Valid _ => []
  end.

(** All the errors of a body, in field order. *)
Definition validation_errors (b : RequestBody) : list issue :=
  check_amount (body_amount b) ++ check_str "merchant" (body_merchant b)
    ++ check_str "category" (body_category b) ++ check_str "city" (body_city b).

(** Construction of a [TransactionRequest] from a body. *)
Definition validate (b : RequestBody) : exn + TransactionRequest :=
  match validation_errors b, body_amount b, body_merchant b, body_category b, body_city b with
  | [], Valid a, Valid m, Valid c, Valid ci =>
      inr {| amount := a; merchant := m; category := c; city := ci |}
  | errs, _, _, _, _ => inl (RequestValidationError errs)
  end.

(** ** The clock *)

(** The fields of [datetime.now()] that [predict] reads. *)
Record datetime : Type := mkDatetime {
  dt_year : Z;
  dt_month : Z;
  dt_day : Z;
  dt_hour : Z
}.

Definition is_leap (year : Z) : bool :=
  (year mod 4 =? 0) && (negb (year mod 100 =? 0) || (year mod 400 =? 0)).

Definition days_before_year (year : Z) : Z :=
  let y := year - 1 in
  y * 365 + y / 4 - y / 100 + y / 400.

Definition days_before_month (year month : Z) : Z :=
  nth (Z.to_nat month) [0; 0; 31; 59; 90; 120; 151; 181; 212; 243; 273; 304; 334] 0
  + (if (2 <? month) && is_leap year then 1 else 0).

Definition toordinal (d : datetime) : Z :=
  days_before_year (dt_year d) + days_before_month (dt_year d) (dt_month d) + dt_day d.

(** [now.weekday()]: 0 is Monday, 6 is Sunday. *)
Definition weekday (d : datetime) : Z := (toordinal d + 6) mod 7.

(** ** Routes *)

Record HealthResponse : Type := mkHealthResponse {
  status : string;
  model_loaded : bool
}.

(** [GET /health]: [{"status": "ok", "model_loaded": model is not None}]. *)
Definition health (st : ServiceState) : HealthResponse :=
  {| status := "ok";
     model_loaded := match model st with Some _ => true | None => false end |}.

Record OptionsResponse : Type := mkOptionsResponse {
  merchants : list string;
  categories : list string;
  cities : list string
}.

(** [GET /options]: the dropdown values built at startup. *)
Definition get_options (st : ServiceState) : OptionsResponse :=
  {| merchants := available_merchants st;
     categories := available_categories st;
     cities := available_cities st |}.

(** The city step of [predict]: [(lat, lon, state, zipcode, city_pop)]. *)
Definition resolve_city (tbl : gmap string CityInfo) (key : string)
    : float * float * string * Z * number :=
  match tbl !! key with
  | None => (39.8283%float, (-98.5795)%float, "KS", 66101, Int 50000)
  | Some city_info =>
      (ci_lat city_info, ci_long city_info, ci_state city_info,
       py_int (ci_zip city_info), ci_city_pop city_info)
  end.

(** The merchant step of [predict]: [(merch_lat, merch_long)]. *)
Definition resolve_merchant (tbl : gmap string MerchantInfo) (key : string)
    (lat lon : float) : float * float :=
  match tbl !! key with
  | None => ((lat + 0.01)%float, (lon + 0.01)%float)
  | Some merch_info => (mi_merch_lat merch_info, mi_merch_long merch_info)
  end.

(** [feature_dict], in the column order the model expects. *)
Definition feature_dict (txn : TransactionRequest) (state : string) (zipcode : Z)
    (lat lon : float) (city_pop : number) (merch_lat merch_long : float)
    (hour day month weekday is_weekend age : Z) (distance : float) : DataFrame :=
  [ ("merchant",   CStr (merchant txn));
    ("category",   CStr (category txn));
    ("amt",        CFloat (amount txn));
    ("gender",     CStr "M");
    ("city",       CStr (city txn));
    ("state",      CStr state);
    ("zip",        CInt zipcode);
    ("lat",        CFloat lat);
    ("long",       CFloat lon);
    ("city_pop",   CInt (py_int city_pop));
    ("job",        CStr "Software Engineer");
    ("merch_lat",  CFloat merch_lat);
    ("merch_long", CFloat merch_long);
    ("hour",       CInt hour);
    ("day",        CInt day);
    ("month",      CInt month);
    ("weekday",    CInt weekday);
    ("is_weekend", CInt is_weekend);
    ("age",        CInt age);
    ("distance",   CFloat distance) ].

(** [int(round(x))] on a double: the nearest integer, a tie going to the even
    one; Python raises when [x] is not a number or is infinite. *)
Definition int_round (x : float) : exn + Z :=
  match Prim2SF x with
  | SpecFloat.S754_nan => inl (ValueError "cannot convert float NaN to integer")
  | SpecFloat.S754_infinity _ =>
      inl (OverflowError "cannot convert float infinity to integer")
  | f => inr (py_round (SF2Q f))
  end.

(** The thresholds on the integer score: [(risk_level, decision)]. *)
Definition risk_bucket (risk_score : Z) : string * string :=
  if risk_score >=? 70 then ("High", "Block")
  else if risk_score >=? 40 then ("Medium", "Require OTP")
  else ("Low", "Approve").

(** [POST /predict], the handler body: the outcome (an exception or the
    response) and the data frames passed to [model.predict_proba]. *)
Definition predict `{L : Libm} (st : ServiceState) (now : datetime) (txn : TransactionRequest)
    : (exn + PredictionResponse) * list DataFrame :=
  match model st with
  | None => (inl (HTTPException 503 "Model not loaded yet"), [])
  | Some clf =>
      (* Resolve lookups *)
      let '(lat, lon, state, zipcode, city_pop) :=
        resolve_city (city_lookup st) (city txn) in
      let '(merch_lat, merch_long) :=
        resolve_merchant (merchant_lookup st) (merchant txn) lat lon in
      (* Time features *)
      let hour := dt_hour now in
      let day := dt_day now in
      let month := dt_month now in
      let weekday := weekday now in
      let is_weekend := if weekday >=? 5 then 1 else 0 in
      (* Derived features *)
      let age := 35 in
      match haversine lat lon merch_lat merch_long with
      | None => (inl (ValueError "math domain error"), [])
      | Some distance =>
          let df_input :=
            feature_dict txn state zipcode lat lon city_pop merch_lat merch_long
              hour day month weekday is_weekend age distance in
          (* Predict *)
          let proba := clf df_input in
          match int_round (proba * 100)%float with
          | inl e => (inl e, [df_input])
          | inr risk_score =>
              let '(risk_level, decision) := risk_bucket risk_score in
              (inr {| risk_score := risk_score;
                      probability := round_ndigits proba 4;
                      risk_level := risk_level;
                      decision := decision |},
               [df_input])
          end
      end
  end.

(** [POST /predict] as the framework serves it: the body is validated into a
    [TransactionRequest] first, and a body that fails never reaches [predict]. *)
Definition post_predict `{L : Libm} (st : ServiceState) (now : datetime) (body : RequestBody)
    : (exn + PredictionResponse) * list DataFrame :=
  match validate body with
  | inl e => (inl e, [])
  | inr txn => predict st now txn
  end.

(** ** Reading a data frame, and a sample deployment *)

(** The cell of column [name] in a one-row data frame. *)
Fixpoint column (df : DataFrame) (name : string) : option cell :=
  match df with
  | [] => None
  | (key, v) :: rest => if String.eqb key name then Some v else column rest name
  end.

(** The twenty column names, in the order the model expects. *)
Definition model_columns : list string :=
  [ "merchant"; "category"; "amt"; "gender"; "city"; "state"; "zip"; "lat";
    "long"; "city_pop"; "job"; "merch_lat"; "merch_long"; "hour"; "day";
    "month"; "weekday"; "is_weekend"; "age"; "distance" ].

(** A service started on a one-city, one-merchant dataset, with a model that
    answers 0.6951 whatever the row; a Tuesday afternoon; and a request. *)
Definition omaha : CityInfo :=
  {| ci_lat := 41.2565; ci_long := -95.9345; ci_state := "NE";
     ci_zip := Int 68102; ci_city_pop := Int 486051 |}.

Definition acme : MerchantInfo :=
  {| mi_merch_lat := 41.2565; mi_merch_long := -95.9345 |}.

Definition sample_model : CatBoostClassifier := fun _ => 0.6951%float.

Definition sample_state : ServiceState :=
  startup sample_model {[ "Omaha" := omaha ]} {[ "fraud_Acme" := acme ]}
    ["fraud_Acme"] ["grocery_pos"] ["Omaha"].

Definition sample_now : datetime :=
  {| dt_year := 2026; dt_month := 11; dt_day := 3; dt_hour := 14 |}.

Definition sample_txn : TransactionRequest :=
  {| amount := 120.5; merchant := "fraud_Acme"; category := "grocery_pos";
     city := "Omaha" |}.

Definition sample_df : DataFrame :=
  [ ("merchant",   CStr "fraud_Acme");
    ("category",   CStr "grocery_pos");
    ("amt",        CFloat 120.5);
    ("gender",     CStr "M");
    ("city",       CStr "Omaha");
    ("state",      CStr "NE");
    ("zip",        CInt 68102);
    ("lat",        CFloat 41.2565);
    ("long",       CFloat (-95.9345));
    ("city_pop",   CInt 486051);
    ("job",        CStr "Software Engineer");
    ("merch_lat",  CFloat 41.2565);
    ("merch_long", CFloat (-95.9345));
    ("hour",       CInt 14);
    ("day",        CInt 3);
    ("month",      CInt 11);
    ("weekday",    CInt 1);
    ("is_weekend", CInt 0);
    ("age",        CInt 35);
    ("distance",   CFloat 0) ].

Definition sample_response : PredictionResponse :=
  {| risk_score := 70; probability := 0.6951; risk_level := "High";
     decision := "Block" |}.

(** A request naming a city and a merchant the tables do not know. *)
Definition unknown_txn : TransactionRequest :=
  {| amount := 10; merchant := "nobody"; category := "misc"; city := "nowhere" |}.

(** A body whose three strings are empty. *)
Definition empty_strings_body : RequestBody :=
  {| body_amount := Valid 12.5%float; body_merchant := Valid ""%string;
     body_category := Valid ""%string; body_city := Valid ""%string |}.

Definition empty_strings_txn : TransactionRequest :=
  {| amount := 12.5; merchant := ""; category := ""; city := "" |}.

(** A service whose one city lies at (8, 0) and whose one merchant lies at the
    antipodal point (-8, 180). *)
Definition antipodal_state : ServiceState :=
  startup sample_model
    {[ "Null Island" := {| ci_lat := 8; ci_long := 0; ci_state := "NA";
                           ci_zip := Int 0; ci_city_pop := Int 1 |} ]}
    {[ "fraud_Far" := {| mi_merch_lat := -8; mi_merch_long := 180 |} ]}
    ["fraud_Far"] ["misc"] ["Null Island"].

Definition antipodal_txn : TransactionRequest :=
  {| amount := 10; merchant := "fraud_Far"; category := "misc"; city := "Null Island" |}.

(** ** Startup from the dataset *)

(** One record of [fraudTest.csv], with the ten columns [startup] reads.  No
    cell is missing. *)
Record DatasetRow : Type := mkDatasetRow {
  row_merchant : string;
  row_category : string;
  row_city : string;
  row_state : string;
  row_zip : number;
  row_lat : float;
  row_long : float;
  row_city_pop : number;
  row_merch_lat : float;
  row_merch_long : float
}.

(** [df.groupby(key)]: under each key, its rows in file order. *)
Definition groupby (key : DatasetRow -> string) (df : list DatasetRow)
    : gmap string (list DatasetRow) :=
  foldr (fun r groups => partial_alter (fun o => Some (r :: default [] o)) (key r) groups)
    ∅ df.

(** [agg({"lat": "mean", "long": "mean", "state": "first", "zip": "first",
    "city_pop": "first"})] on the rows of one city. *)
Definition agg_city `{P : Pandas} (rows : list DatasetRow) : option CityInfo :=
  match rows with
  | [] => None
  | first :: _ =>
      Some {| ci_lat := mean (row_lat <$> rows);
              ci_long := mean (row_long <$> rows);
              ci_state := row_state first;
              ci_zip := row_zip first;
              ci_city_pop := row_city_pop first |}
  end.

(** [agg({"merch_lat": "mean", "merch_long": "mean"})] on the rows of one
    merchant. *)
Definition agg_merchant `{P : Pandas} (rows : list DatasetRow) : option MerchantInfo :=
  match rows with
  | [] => None
  | _ :: _ =>
      Some {| mi_merch_lat := mean (row_merch_lat <$> rows);
              mi_merch_long := mean (row_merch_long <$> rows) |}
  end.

(** [df.groupby("city").agg(...).to_dict(orient="index")]. *)
Definition city_group `{P : Pandas} (df : list DatasetRow) : gmap string CityInfo :=
  omap agg_city (groupby row_city df).

(** [df.groupby("merchant").agg(...).to_dict(orient="index")]. *)
Definition merch_group `{P : Pandas} (df : list DatasetRow) : gmap string MerchantInfo :=
  omap agg_merchant (groupby row_merchant df).

(** [Series.unique().tolist()]: the values in order of first appearance. *)
Fixpoint unique (l : list string) : list string :=
  match l with
  | [] => []
  | x :: l => x :: filter (fun y => y <> x) (unique l)
  end.

(** The order of [str]: lexicographic on the characters (on the bytes of the
    UTF-8 encoding, which is the order of the code points). *)
Definition str_le (s1 s2 : string) : Prop := String.leb s1 s2 = true.

#[global] Instance str_le_dec (s1 s2 : string) : Decision (str_le s1 s2).
Proof. unfold str_le. apply _. Defined.

(** [sorted(l)] on strings. *)
Definition sorted (l : list string) : list string := merge_sort str_le l.

(** [startup] on a loaded model and the rows of the dataset: the two lookup
    tables and the three dropdown lists computed from the rows. *)
Definition startup_df `{P : Pandas} (loaded : CatBoostClassifier) (df : list DatasetRow)
    : ServiceState :=
  startup loaded (city_group df) (merch_group df)
    (sorted (unique (row_merchant <$> df)))
    (sorted (unique (row_category <$> df)))
    (sorted (unique (row_city <$> df))).

(** A four-row dataset: two rows for Omaha, of different coordinates and
    merchants, one for Austin and one for Boise. *)
Definition sample_rows : list DatasetRow :=
  [ mkDatasetRow "fraud_Kilback" "grocery_pos" "Omaha" "NE" (Int 68102)
      41.25 (-95.75) (Int 486051) 41.5 (-96);
    mkDatasetRow "fraud_Acme" "gas_transport" "Austin" "TX" (Int 73301)
      30.25 (-97.75) (Int 961855) 30.5 (-97.5);
    mkDatasetRow "fraud_Acme" "grocery_pos" "Omaha" "NB" (Int 68104)
      41.75 (-96.25) (Int 500000) 42 (-96);
    mkDatasetRow "fraud_Bode" "misc_net" "Boise" "ID" (Int 83702)
      43.5 (-116.25) (Int 235684) 43.75 (-116) ].

(** A mean for the samples: the sum of the values from the left, divided by
    their number. *)
Definition sum_over_length : Pandas :=
  {| mean := fun xs =>
       (foldl add 0 xs / of_uint63 (Uint63Axioms.of_Z (Z.of_nat (length xs))))%float |}.
End Service.

(** * Properties *)

(** ** Rounding *)

Lemma inject_Z_succ (z : Z) : (inject_Z (z + 1) == inject_Z z + 1)%Q.
Proof. rewrite inject_Z_plus. reflexivity. Qed.

(** [round] is within one half of its argument. *)
Lemma py_round_near (x : Q) :
  (inject_Z (py_round x) - (1 # 2) <= x <= inject_Z (py_round x) + (1 # 2))%Q.
Proof.
  unfold py_round.
  pose proof (Qfloor_le x) as Hlo.
  pose proof (Qlt_floor x) as Hhi.
  rewrite inject_Z_succ in Hhi.
  destruct (Qcompare_spec (x - inject_Z (Qfloor x)) (1 # 2)) as [He | Hl | Hg].
  - destruct (Z.even (Qfloor x)); rewrite ?inject_Z_succ; Lqa.lra.
  - Lqa.lra.
  - rewrite inject_Z_succ. Lqa.lra.
Qed.

(** An integer that bounds the argument bounds the rounded value. *)
Lemma py_round_between (x : Q) (lo hi : Z) :
  (inject_Z lo <= x <= inject_Z hi)%Q -> lo <= py_round x <= hi.
Proof.
  intros [Hlo Hhi].
  pose proof (py_round_near x) as [Hn1 Hn2].
  split.
  - enough (lo < py_round x + 1) by lia.
    rewrite Zlt_Qlt, inject_Z_succ. Lqa.lra.
  - enough (py_round x < hi + 1) by lia.
    rewrite Zlt_Qlt. rewrite inject_Z_succ. Lqa.lra.
Qed.

(** For an even integer [n], [round(x)] reaches [n] exactly when [x] reaches
    [n - 1/2]: the tie goes to [n]. *)
Lemma py_round_ge_even (x : Q) (n : Z) :
  Z.even n = true -> (n <= py_round x <-> (inject_Z n - (1 # 2) <= x)%Q).
Proof.
  intros Hev. split.
  - intros Hn. pose proof (py_round_near x) as [Hlow _].
    rewrite Zle_Qle in Hn. Lqa.lra.
  - intros Hx. unfold py_round. cbv zeta.
    pose proof (Qfloor_le x) as Hlo. pose proof (Qlt_floor x) as Hhi.
    rewrite inject_Z_succ in Hhi.
    assert (Hf : n - 1 <= Qfloor x).
    { enough (n - 1 < Qfloor x + 1) by lia.
      rewrite Zlt_Qlt, inject_Z_succ.
      replace (n - 1) with (n + -1) by lia. rewrite inject_Z_plus.
      change (inject_Z (-1)) with (-1)%Q. Lqa.lra. }
    destruct (Z.eq_dec (Qfloor x) (n - 1)) as [E | NE].
    + assert (Hodd : Z.even (Qfloor x) = false).
      { rewrite E. replace (n - 1) with (Z.pred n) by lia.
        rewrite Z.even_pred, <- Z.negb_even, Hev. reflexivity. }
      assert (Ei : (inject_Z (Qfloor x) == inject_Z n - 1)%Q).
      { rewrite E. replace (n - 1) with (n + -1) by lia. rewrite inject_Z_plus.
        reflexivity. }
      destruct (Qcompare_spec (x - inject_Z (Qfloor x)) (1 # 2)) as [He | Hl | Hg].
      * rewrite Hodd. lia.
      * exfalso. Lqa.lra.
      * lia.
    + destruct (x - inject_Z (Qfloor x) ?= 1 # 2)%Q;
        [destruct (Z.even (Qfloor x))| |]; lia.
Qed.

(** [round] is a nearest integer, and when two integers are nearest it is the
    even one. *)
Lemma py_round_nearest_even (x : Q) :
  (Qabs (inject_Z (py_round x) - x) <= 1 # 2)%Q
  /\ ((Qabs (inject_Z (py_round x) - x) == 1 # 2)%Q -> Z.even (py_round x) = true).
Proof.
  split.
  - pose proof (py_round_near x) as [H1 H2]. apply Qabs_Qle_condition. split; Lqa.lra.
  - unfold py_round. cbv zeta.
    pose proof (Qfloor_le x) as Hlo. pose proof (Qlt_floor x) as Hhi.
    rewrite inject_Z_succ in Hhi.
    destruct (Qcompare_spec (x - inject_Z (Qfloor x)) (1 # 2)) as [He | Hl | Hg].
    + destruct (Z.even (Qfloor x)) eqn:Ev; [auto|]. intros _.
      replace (Qfloor x + 1) with (Z.succ (Qfloor x)) by lia.
      rewrite Z.even_succ, <- Z.negb_even, Ev. reflexivity.
    + intros Ha. exfalso.
      rewrite Qabs_neg in Ha by Lqa.lra. Lqa.lra.
    + intros Ha. exfalso. rewrite inject_Z_succ in Ha.
      rewrite Qabs_pos in Ha by Lqa.lra. Lqa.lra.
Qed.

(** ** The prediction route *)

Section PredictionRoute.
Import PrimFloat FloatOps Binary64.

(** [int(round(x))] returns exactly on the doubles that are numbers, and then
    it is [round] of the number the double stands for. *)
Lemma int_round_inr (x : float) (z : Z) :
  int_round x = inr z -> z = py_round (B2Q x).
Proof.
  unfold int_round, B2Q. destruct (Prim2SF x); intros [= <-] || discriminate; reflexivity.
Qed.

Lemma int_round_inl (x : float) (e : exn) :
  int_round x = inl e ->
  (Prim2SF x = SpecFloat.S754_nan
   /\ e = ValueError "cannot convert float NaN to integer")
  \/ (exists s, Prim2SF x = SpecFloat.S754_infinity s
        /\ e = OverflowError "cannot convert float infinity to integer").
Proof.
  unfold int_round. destruct (Prim2SF x) as [s|s| |s m ex]; try discriminate.
  - intros [= <-]. right. eauto.
  - intros [= <-]. left. auto.
Qed.

(** What [predict] returns once the model is loaded and the distance helper
    has returned: the data frame goes to the classifier, and the answer is
    turned into the response, or into the exception of [int(round(...))]. *)
Lemma predict_loaded `{L : Libm} (st : ServiceState) (now : datetime)
    (txn : TransactionRequest) (clf : CatBoostClassifier) (lat lon : float)
    (state : string) (zipcode : Z) (city_pop : number)
    (merch_lat merch_long distance : float) :
  model st = Some clf ->
  resolve_city (city_lookup st) (city txn) = (lat, lon, state, zipcode, city_pop) ->
  resolve_merchant (merchant_lookup st) (merchant txn) lat lon = (merch_lat, merch_long) ->
  haversine lat lon merch_lat merch_long = Some distance ->
  let df :=
    feature_dict txn state zipcode lat lon city_pop merch_lat merch_long
      (dt_hour now) (dt_day now) (dt_month now) (weekday now)
      (if weekday now >=? 5 then 1 else 0) 35 distance in
  predict st now txn =
    match int_round (clf df * 100)%float with
    | inl e => (inl e, [df])
    | inr score =>
        (inr {| risk_score := score;
                probability := round_ndigits (clf df) 4;
                risk_level := (risk_bucket score).1;
                decision := (risk_bucket score).2 |},
         [df])
    end.
Proof.
  intros Hm Hc Hmer Hd df. unfold predict.
  rewrite Hm, Hc, Hmer, Hd. fold df.
  destruct (int_round (clf df * 100)%float) as [e | score]; [reflexivity|].
  destruct (risk_bucket score) as [level dec]. reflexivity.
Qed.

(** Conversely, a data frame reaches the classifier only along that path. *)
Lemma predict_calls_inv `{L : Libm} (st : ServiceState) (now : datetime)
    (txn : TransactionRequest) (df : DataFrame) :
  df ∈ (predict st now txn).2 ->
  exists clf lat lon state zipcode city_pop merch_lat merch_long distance,
    model st = Some clf
    /\ resolve_city (city_lookup st) (city txn) = (lat, lon, state, zipcode, city_pop)
    /\ resolve_merchant (merchant_lookup st) (merchant txn) lat lon = (merch_lat, merch_long)
    /\ haversine lat lon merch_lat merch_long = Some distance
    /\ (predict st now txn).2 = [df]
    /\ df = feature_dict txn state zipcode lat lon city_pop merch_lat merch_long
              (dt_hour now) (dt_day now) (dt_month now) (weekday now)
              (if weekday now >=? 5 then 1 else 0) 35 distance.
Proof.
  destruct (model st) as [clf|] eqn:Hm.
  2:{ unfold predict. rewrite Hm. simpl. intros Hin. inversion Hin. }
  destruct (resolve_city (city_lookup st) (city txn))
    as [[[[lat lon] state] zipcode] city_pop] eqn:Hc.
  destruct (resolve_merchant (merchant_lookup st) (merchant txn) lat lon)
    as [merch_lat merch_long] eqn:Hmer.
  destruct (haversine lat lon merch_lat merch_long) as [distance|] eqn:Hd.
  - rewrite (predict_loaded st now txn clf _ _ _ _ _ _ _ _ Hm Hc Hmer Hd).
    set (df0 := feature_dict txn state zipcode lat lon city_pop merch_lat merch_long
                  (dt_hour now) (dt_day now) (dt_month now) (weekday now)
                  (if weekday now >=? 5 then 1 else 0) 35 distance).
    destruct (int_round (clf df0 * 100)%float); cbn [snd]; intros Hin;
      apply list_elem_of_singleton in Hin; subst df;
      exists clf, lat, lon, state, zipcode, city_pop, merch_lat, merch_long, distance;
      auto 10.
  - unfold predict. rewrite Hm, Hc, Hmer, Hd. simpl. intros Hin. inversion Hin.
Qed.

(** A response is returned only along that path as well. *)
Lemma predict_response_inv `{L : Libm} (st : ServiceState) (now : datetime)
    (txn : TransactionRequest) (resp : PredictionResponse) (dfs : list DataFrame) :
  predict st now txn = (inr resp, dfs) ->
  exists clf df score,
    model st = Some clf /\ dfs = [df] /\ df ∈ (predict st now txn).2
    /\ int_round (clf df * 100)%float = inr score
    /\ resp = {| risk_score := score;
                 probability := round_ndigits (clf df) 4;
                 risk_level := (risk_bucket score).1;
                 decision := (risk_bucket score).2 |}.
Proof.
  destruct (model st) as [clf|] eqn:Hm.
  2:{ unfold predict. rewrite Hm. discriminate. }
  destruct (resolve_city (city_lookup st) (city txn))
    as [[[[lat lon] state] zipcode] city_pop] eqn:Hc.
  destruct (resolve_merchant (merchant_lookup st) (merchant txn) lat lon)
    as [merch_lat merch_long] eqn:Hmer.
  destruct (haversine lat lon merch_lat merch_long) as [distance|] eqn:Hd.
  - rewrite (predict_loaded st now txn clf _ _ _ _ _ _ _ _ Hm Hc Hmer Hd).
    destruct (int_round _) as [e | score] eqn:Hs; [discriminate|].
    intros [= <- <-].
    eexists clf, _, score. split; [reflexivity|]. split; [reflexivity|].
    split; [cbn [snd]; apply list_elem_of_singleton; reflexivity|].
    split; [exact Hs | reflexivity].
  - unfold predict. rewrite Hm, Hc, Hmer, Hd. discriminate.
Qed.

(** The sample request on the sample deployment, with the small-angle C
    library. *)
Lemma sample_run :
  predict (L := libm_small_angle) sample_state sample_now sample_txn
  = (inr sample_response, [sample_df]).
Proof. vm_compute. reflexivity. Qed.

(** ** Risk bucketing *)

Lemma risk_bucket_low (s : Z) : s < 40 -> risk_bucket s = ("Low", "Approve").
Proof.
  intros Hs. unfold risk_bucket.
  destruct (Z.geb_spec s 70); [lia|]. destruct (Z.geb_spec s 40); [lia|]. reflexivity.
Qed.

Lemma risk_bucket_medium (s : Z) : 40 <= s < 70 -> risk_bucket s = ("Medium", "Require OTP").
Proof.
  intros Hs. unfold risk_bucket.
  destruct (Z.geb_spec s 70); [lia|]. destruct (Z.geb_spec s 40); [|lia]. reflexivity.
Qed.

Lemma risk_bucket_high (s : Z) : 70 <= s -> risk_bucket s = ("High", "Block").
Proof.
  intros Hs. unfold risk_bucket. destruct (Z.geb_spec s 70); [|lia]. reflexivity.
Qed.

(** C1.  Whenever [predict] returns a response, its risk level and decision are
    [risk_bucket] of its integer risk score and of nothing else; that function
    sends every score from 0 to 39 to ("Low", "Approve"), every score from 40
    to 69 to ("Medium", "Require OTP") and every score from 70 to 100 to
    ("High", "Block"); the boundary scores 39, 40, 69 and 70 land in Low,
    Medium, Medium and High. *)
Theorem risk_bucketing `{L : Libm} (st : ServiceState) (now : datetime)
    (txn : TransactionRequest) (resp : PredictionResponse) (dfs : list DataFrame) :
  predict st now txn = (inr resp, dfs) ->
  (risk_level resp, decision resp) = risk_bucket (risk_score resp)
  /\ (forall s, 0 <= s <= 39 -> risk_bucket s = ("Low", "Approve"))
  /\ (forall s, 40 <= s <= 69 -> risk_bucket s = ("Medium", "Require OTP"))
  /\ (forall s, 70 <= s <= 100 -> risk_bucket s = ("High", "Block"))
  /\ risk_bucket 39 = ("Low", "Approve")
  /\ risk_bucket 40 = ("Medium", "Require OTP")
  /\ risk_bucket 69 = ("Medium", "Require OTP")
  /\ risk_bucket 70 = ("High", "Block").
Proof.
  intros Hrun.
  destruct (predict_response_inv _ _ _ _ _ Hrun) as (clf & df & score & _ & _ & _ & _ & ->).
  cbn [risk_level decision risk_score].
  split; [destruct (risk_bucket _); reflexivity|].
  split; [intros s Hs; apply risk_bucket_low; lia|].
  split; [intros s Hs; apply risk_bucket_medium; lia|].
  split; [intros s Hs; apply risk_bucket_high; lia|].
  repeat split.
Qed.

Lemma risk_bucketing_sample :
  predict (L := libm_small_angle) sample_state sample_now sample_txn
    = (inr sample_response, [sample_df])
  /\ (risk_level sample_response, decision sample_response)
     = risk_bucket (risk_score sample_response).
Proof.
  split; [exact sample_run|].
  exact (proj1 (risk_bucketing (L := libm_small_angle) sample_state sample_now sample_txn
                  sample_response [sample_df] sample_run)).
Defined.

(** ** The feature vector *)

(** C4, as the code has it.  The data frame has no column named amount,
    latitude, longitude, city_population, merchant_latitude or
    merchant_longitude: the six are keyed amt, lat, long, city_pop, merch_lat
    and merch_long. *)
Lemma feature_names_of_the_code :
  exists df,
    (predict (L := libm_small_angle) sample_state sample_now sample_txn).2 = [df]
    /\ column df "amount" = None
    /\ column df "latitude" = None
    /\ column df "longitude" = None
    /\ column df "city_population" = None
    /\ column df "merchant_latitude" = None
    /\ column df "merchant_longitude" = None
    /\ column df "amt" = Some (CFloat 120.5)
    /\ column df "lat" = Some (CFloat 41.2565)
    /\ column df "long" = Some (CFloat (-95.9345))
    /\ column df "city_pop" = Some (CInt 486051)
    /\ column df "merch_lat" = Some (CFloat 41.2565)
    /\ column df "merch_long" = Some (CFloat (-95.9345)).
Proof.
  exists sample_df. split; [exact (f_equal snd sample_run)|]. repeat split.
Qed.

(** C4, amended.  With the model loaded and the distance computed, [predict]
    passes the classifier exactly one data frame, of exactly twenty columns,
    keyed in this order: merchant, category, amt, gender, city, state, zip,
    lat, long, city_pop, job, merch_lat, merch_long, hour, day, month, weekday,
    is_weekend, age, distance; amt holds the amount of the request, lat and
    long the resolved latitude and longitude, city_pop the city population as
    an integer, merch_lat and merch_long the merchant's coordinates, and every
    other column the value of its name. *)
Theorem feature_vector_layout `{L : Libm} (st : ServiceState) (now : datetime)
    (txn : TransactionRequest) (clf : CatBoostClassifier) (lat lon : float)
    (state : string) (zipcode : Z) (city_pop : number)
    (merch_lat merch_long distance : float) :
  model st = Some clf ->
  resolve_city (city_lookup st) (city txn) = (lat, lon, state, zipcode, city_pop) ->
  resolve_merchant (merchant_lookup st) (merchant txn) lat lon = (merch_lat, merch_long) ->
  haversine lat lon merch_lat merch_long = Some distance ->
  exists df,
    (predict st now txn).2 = [df]
    /\ length df = 20%nat
    /\ df.*1 =
         [ "merchant"; "category"; "amt"; "gender"; "city"; "state"; "zip"; "lat";
           "long"; "city_pop"; "job"; "merch_lat"; "merch_long"; "hour"; "day";
           "month"; "weekday"; "is_weekend"; "age"; "distance" ]
    /\ df.*2 =
         [ CStr (merchant txn); CStr (category txn); CFloat (amount txn);
           CStr "M"; CStr (city txn); CStr state; CInt zipcode;
           CFloat lat; CFloat lon; CInt (py_int city_pop);
           CStr "Software Engineer"; CFloat merch_lat;
           CFloat merch_long; CInt (dt_hour now); CInt (dt_day now);
           CInt (dt_month now); CInt (weekday now);
           CInt (if weekday now >=? 5 then 1 else 0); CInt 35; CFloat distance ].
Proof.
  intros Hm Hc Hmer Hd.
  rewrite (predict_loaded st now txn clf _ _ _ _ _ _ _ _ Hm Hc Hmer Hd).
  eexists. split; [destruct (int_round _); reflexivity|]. repeat split.
Qed.

Lemma feature_vector_layout_sample :
  exists df,
    (predict (L := libm_small_angle) sample_state sample_now sample_txn).2 = [df]
    /\ length df = 20%nat
    /\ df.*1 = model_columns
    /\ df.*2 = sample_df.*2.
Proof.
  destruct (feature_vector_layout (L := libm_small_angle) sample_state sample_now
              sample_txn sample_model
              41.2565 (-95.9345) "NE" 68102 (Int 486051) 41.2565 (-95.9345) 0
              eq_refl eq_refl eq_refl eq_refl)
    as (df & H1 & H2 & H3 & H4).
  exists df. repeat split; assumption.
Defined.

(** X2.  The time-derived and the fixed columns of every data frame [predict] hands
    to the classifier: hour, day and month are the clock's, weekday is a number
    from 0 (Monday) to 6 (Sunday), is_weekend is 1 exactly when weekday is 5 or
    6, and age, gender and job are 35, "M" and "Software Engineer". *)
Theorem time_and_default_features `{L : Libm} (st : ServiceState) (now : datetime)
    (txn : TransactionRequest) (df : DataFrame) :
  df ∈ (predict st now txn).2 ->
  column df "hour" = Some (CInt (dt_hour now))
  /\ column df "day" = Some (CInt (dt_day now))
  /\ column df "month" = Some (CInt (dt_month now))
  /\ (exists w, column df "weekday" = Some (CInt w)
         /\ 0 <= w <= 6
         /\ column df "is_weekend"
            = Some (CInt (if bool_decide (w = 5 \/ w = 6) then 1 else 0)))
  /\ column df "age" = Some (CInt 35)
  /\ column df "gender" = Some (CStr "M")
  /\ column df "job" = Some (CStr "Software Engineer").
Proof.
  intros Hdf.
  destruct (predict_calls_inv _ _ _ _ Hdf)
    as (clf & lat & lon & state & zipcode & city_pop & mlat & mlong & d
        & _ & _ & _ & _ & _ & ->).
  repeat split.
  exists (weekday now).
  assert (Hw : 0 <= weekday now <= 6).
  { unfold weekday. pose proof (Z.mod_pos_bound (toordinal now + 6) 7). lia. }
  split; [reflexivity|]. split; [exact Hw|].
  cbn [column feature_dict String.eqb Ascii.eqb Bool.eqb].
  destruct (Z.geb_spec (weekday now) 5); case_bool_decide; first [reflexivity | lia].
Qed.

Lemma time_and_default_features_sample :
  column sample_df "weekday" = Some (CInt 1)
  /\ column sample_df "is_weekend" = Some (CInt 0)
  /\ column sample_df "age" = Some (CInt 35).
Proof.
  assert (Hin : sample_df
                ∈ (predict (L := libm_small_angle) sample_state sample_now sample_txn).2)
    by (rewrite sample_run; apply list_elem_of_singleton; reflexivity).
  destruct (time_and_default_features (L := libm_small_angle) sample_state sample_now
              sample_txn sample_df Hin)
    as (_ & _ & _ & _ & H5 & _).
  split; [reflexivity|]. split; [reflexivity|]. exact H5.
Defined.

(** ** Lookup resolution *)

(** The request for a city and a merchant the tables do not know, on the
    sample deployment with the small-angle C library. *)
Lemma unknown_run :
  exists df,
    (predict (L := libm_small_angle) sample_state sample_now unknown_txn).2 = [df]
    /\ column df "lat" = Some (CFloat 39.8283)
    /\ column df "long" = Some (CFloat (-98.5795))
    /\ column df "zip" = Some (CInt 66101).
Proof. eexists. split; [vm_compute; reflexivity|]. repeat split. Qed.

(** C5.  When the city of the request is not a key of the city table, the city
    step yields exactly latitude 39.8283, longitude -98.5795, state "KS", zip
    66101 and population 50000; when it is a key, the step yields that entry's
    latitude, longitude and state, its zip converted to an integer, and its
    population.  These are the values in the columns lat, long, state, zip and
    city_pop of every data frame [predict] hands to the classifier. *)
Theorem city_resolution `{L : Libm} (st : ServiceState) (now : datetime)
    (txn : TransactionRequest) :
  (city_lookup st !! city txn = None ->
     resolve_city (city_lookup st) (city txn)
       = (39.8283%float, (-98.5795)%float, "KS", 66101, Int 50000)
     /\ forall df, df ∈ (predict st now txn).2 ->
          column df "lat" = Some (CFloat 39.8283)
          /\ column df "long" = Some (CFloat (-98.5795))
          /\ column df "state" = Some (CStr "KS")
          /\ column df "zip" = Some (CInt 66101)
          /\ column df "city_pop" = Some (CInt 50000))
  /\ (forall city_info, city_lookup st !! city txn = Some city_info ->
        resolve_city (city_lookup st) (city txn)
          = (ci_lat city_info, ci_long city_info, ci_state city_info,
             py_int (ci_zip city_info), ci_city_pop city_info)
        /\ forall df, df ∈ (predict st now txn).2 ->
             column df "lat" = Some (CFloat (ci_lat city_info))
             /\ column df "long" = Some (CFloat (ci_long city_info))
             /\ column df "state" = Some (CStr (ci_state city_info))
             /\ column df "zip" = Some (CInt (py_int (ci_zip city_info)))
             /\ column df "city_pop" = Some (CInt (py_int (ci_city_pop city_info)))).
Proof.
  split.
  - intros Hnone.
    assert (Hres : resolve_city (city_lookup st) (city txn)
                   = (39.8283%float, (-98.5795)%float, "KS", 66101, Int 50000))
      by (unfold resolve_city; rewrite Hnone; reflexivity).
    split; [exact Hres|]. intros df Hdf.
    destruct (predict_calls_inv _ _ _ _ Hdf)
      as (clf & lat & lon & state & zipcode & city_pop & mlat & mlong & d
          & _ & Hc & _ & _ & _ & ->).
    rewrite Hres in Hc. injection Hc as <- <- <- <- <-.
    repeat split.
  - intros city_info Hsome.
    assert (Hres : resolve_city (city_lookup st) (city txn)
                   = (ci_lat city_info, ci_long city_info, ci_state city_info,
                      py_int (ci_zip city_info), ci_city_pop city_info))
      by (unfold resolve_city; rewrite Hsome; reflexivity).
    split; [exact Hres|]. intros df Hdf.
    destruct (predict_calls_inv _ _ _ _ Hdf)
      as (clf & lat & lon & state & zipcode & city_pop & mlat & mlong & d
          & _ & Hc & _ & _ & _ & ->).
    rewrite Hres in Hc. injection Hc as <- <- <- <- <-.
    repeat split.
Qed.

Lemma city_resolution_sample :
  (exists df,
     (predict (L := libm_small_angle) sample_state sample_now unknown_txn).2 = [df]
     /\ column df "lat" = Some (CFloat 39.8283)
     /\ column df "zip" = Some (CInt 66101))
  /\ (exists df,
        (predict (L := libm_small_angle) sample_state sample_now sample_txn).2 = [df]
        /\ column df "lat" = Some (CFloat 41.2565)
        /\ column df "zip" = Some (CInt 68102)).
Proof.
  split.
  - destruct unknown_run as (df & Hdf & _).
    exists df. split; [exact Hdf|].
    destruct (proj1 (city_resolution (L := libm_small_angle) sample_state sample_now
                       unknown_txn) eq_refl)
      as [_ Hcols].
    destruct (Hcols df) as (H1 & _ & _ & H4 & _).
    + rewrite Hdf. apply list_elem_of_singleton. reflexivity.
    + split; assumption.
  - exists sample_df. split; [exact (f_equal snd sample_run)|].
    destruct (proj2 (city_resolution (L := libm_small_angle) sample_state sample_now
                       sample_txn) omaha eq_refl)
      as [_ Hcols].
    destruct (Hcols sample_df) as (H1 & _ & _ & H4 & _).
    + rewrite sample_run. apply list_elem_of_singleton. reflexivity.
    + split; assumption.
Defined.

(** C6.  When the merchant of the request is not a key of the merchant table,
    the merchant coordinates are the latitude and the longitude of the city
    step, each plus 0.01, whether the city step found its key or fell back: the
    binary64 sums [lat + 0.01] and [lon + 0.01] that the code computes.  When
    the merchant is a key, they are that entry's coordinates.  These are the
    values in the columns merch_lat and merch_long of every data frame
    [predict] hands to the classifier. *)
Theorem merchant_resolution `{L : Libm} (st : ServiceState) (now : datetime)
    (txn : TransactionRequest) (lat lon : float) (state : string) (zipcode : Z)
    (city_pop : number) :
  resolve_city (city_lookup st) (city txn) = (lat, lon, state, zipcode, city_pop) ->
  (merchant_lookup st !! merchant txn = None ->
     resolve_merchant (merchant_lookup st) (merchant txn) lat lon
       = ((lat + 0.01)%float, (lon + 0.01)%float)
     /\ forall df, df ∈ (predict st now txn).2 ->
          column df "lat" = Some (CFloat lat)
          /\ column df "long" = Some (CFloat lon)
          /\ column df "merch_lat" = Some (CFloat (lat + 0.01))
          /\ column df "merch_long" = Some (CFloat (lon + 0.01)))
  /\ (forall merch_info, merchant_lookup st !! merchant txn = Some merch_info ->
        resolve_merchant (merchant_lookup st) (merchant txn) lat lon
          = (mi_merch_lat merch_info, mi_merch_long merch_info)
        /\ forall df, df ∈ (predict st now txn).2 ->
             column df "merch_lat" = Some (CFloat (mi_merch_lat merch_info))
             /\ column df "merch_long" = Some (CFloat (mi_merch_long merch_info))).
Proof.
  intros Hc. split.
  - intros Hnone.
    assert (Hres : resolve_merchant (merchant_lookup st) (merchant txn) lat lon
                   = ((lat + 0.01)%float, (lon + 0.01)%float))
      by (unfold resolve_merchant; rewrite Hnone; reflexivity).
    split; [exact Hres|]. intros df Hdf.
    destruct (predict_calls_inv _ _ _ _ Hdf)
      as (clf & lat' & lon' & state' & zipcode' & city_pop' & mlat & mlong & d
          & _ & Hc' & Hmer & _ & _ & ->).
    rewrite Hc in Hc'. injection Hc' as <- <- <- <- <-.
    rewrite Hres in Hmer. injection Hmer as <- <-.
    repeat split.
  - intros merch_info Hsome.
    assert (Hres : resolve_merchant (merchant_lookup st) (merchant txn) lat lon
                   = (mi_merch_lat merch_info, mi_merch_long merch_info))
      by (unfold resolve_merchant; rewrite Hsome; reflexivity).
    split; [exact Hres|]. intros df Hdf.
    destruct (predict_calls_inv _ _ _ _ Hdf)
      as (clf & lat' & lon' & state' & zipcode' & city_pop' & mlat & mlong & d
          & _ & Hc' & Hmer & _ & _ & ->).
    rewrite Hc in Hc'. injection Hc' as <- <- <- <- <-.
    rewrite Hres in Hmer. injection Hmer as <- <-.
    repeat split.
Qed.

(** On the fallback city the two sums are the doubles 39.8383 and
    -98.56949999999999: the second is the double just above the one nearest to
    -98.5695. *)
Lemma merchant_resolution_sample :
  resolve_city (city_lookup sample_state) (city unknown_txn)
    = (39.8283%float, (-98.5795)%float, "KS", 66101, Int 50000)
  /\ (exists df,
        (predict (L := libm_small_angle) sample_state sample_now unknown_txn).2 = [df]
        /\ column df "merch_lat" = Some (CFloat (39.8283 + 0.01))
        /\ column df "merch_long" = Some (CFloat (-98.5795 + 0.01)))
  /\ (39.8283 + 0.01 = 0x1.3eb4d6a161e4fp+5)%float
  /\ (-98.5795 + 0.01 = -0x1.8a472b020c49bp+6)%float
  /\ next_up (-98.5695) = (-98.5795 + 0.01)%float.
Proof.
  destruct (proj1 (merchant_resolution (L := libm_small_angle) sample_state sample_now
                     unknown_txn 39.8283 (-98.5795) "KS" 66101 (Int 50000) eq_refl)
              eq_refl)
    as [Hres Hcols].
  split; [reflexivity|]. split; [|repeat split].
  destruct unknown_run as (df & Hdf & _).
  exists df. split; [exact Hdf|].
  destruct (Hcols df) as (_ & _ & H3 & H4).
  - rewrite Hdf. apply list_elem_of_singleton. reflexivity.
  - split; assumption.
Defined.

(** ** The model guard and the health route *)

(** C8.  While the model is unset, [predict] raises [HTTPException] with
    status 503 and the detail "Model not loaded yet" and passes nothing to the
    classifier, for every request, and so does the served route on every body
    that validates; [health] answers status "ok" always, with [model_loaded]
    false exactly when the model is unset and true exactly when it is set:
    false in the initial state, true after [startup]. *)
Theorem model_guard `{L : Libm} (st : ServiceState) :
  (model st = None ->
     forall now txn,
       predict st now txn = (inl (HTTPException 503 "Model not loaded yet"), [])
       /\ status_of (HTTPException 503 "Model not loaded yet") = 503
       /\ forall body, validate body = inr txn ->
            post_predict st now body
              = (inl (HTTPException 503 "Model not loaded yet"), []))
  /\ status (health st) = "ok"
  /\ (model_loaded (health st) = false <-> model st = None)
  /\ (model_loaded (health st) = true <-> exists clf, model st = Some clf)
  /\ model_loaded (health initial_state) = false
  /\ (forall loaded city_group merch_group ms cs cis,
        model_loaded (health (startup loaded city_group merch_group ms cs cis)) = true).
Proof.
  split.
  { intros Hm now txn.
    assert (Hp : predict st now txn = (inl (HTTPException 503 "Model not loaded yet"), []))
      by (unfold predict; rewrite Hm; reflexivity).
    split; [exact Hp|]. split; [reflexivity|].
    intros body Hv. unfold post_predict. rewrite Hv. exact Hp. }
  split; [reflexivity|].
  unfold health. cbn [model_loaded].
  destruct (model st) as [clf|].
  - repeat split; try discriminate; eauto.
  - repeat split; try discriminate; eauto. intros [clf' Hclf]. discriminate.
Qed.

Lemma model_guard_sample :
  predict (L := libm_small_angle) initial_state sample_now sample_txn
    = (inl (HTTPException 503 "Model not loaded yet"), [])
  /\ health initial_state = {| status := "ok"; model_loaded := false |}
  /\ health sample_state = {| status := "ok"; model_loaded := true |}.
Proof.
  split; [| split; reflexivity].
  exact (proj1 (proj1 (model_guard (L := libm_small_angle) initial_state) eq_refl
                  sample_now sample_txn)).
Defined.

(** ** Request validation *)

Lemma validate_errors (b : RequestBody) :
  validation_errors b <> [] ->
  validate b = inl (RequestValidationError (validation_errors b)).
Proof.
  intros Hne. unfold validate.
  destruct (validation_errors b) as [|e errs]; [contradiction|].
  destruct (body_amount b), (body_merchant b), (body_category b), (body_city b);
    reflexivity.
Qed.

Lemma validate_present (a : float) (m c ci : string) :
  (0 <? a)%float = true ->
  validate {| body_amount := Valid a; body_merchant := Valid m;
              body_category := Valid c; body_city := Valid ci |}
    = inr {| amount := a; merchant := m; category := c; city := ci |}.
Proof.
  intros Ha. unfold validate, validation_errors, check_amount, check_str, gt_zero.
  cbn [body_amount body_merchant body_category body_city].
  rewrite Ha. reflexivity.
Qed.

(** A double that is at most 0 is not above 0. *)
Lemma leb_zero_not_gt (a : float) : (a <=? 0)%float = true -> gt_zero a = false.
Proof.
  unfold gt_zero. rewrite FloatAxioms.ltb_spec, FloatAxioms.leb_spec.
  change (Prim2SF 0) with (SpecFloat.S754_zero false).
  destruct (Prim2SF a) as [s|[]| |[] m e]; cbn; intros Hle;
    try reflexivity; discriminate Hle.
Qed.

Lemma check_amount_rejects (a : float) :
  (a <=? 0)%float = true -> check_amount (Valid a) = [NotGreaterThan "amount" 0].
Proof. intros Ha. unfold check_amount. rewrite (leb_zero_not_gt a Ha). reflexivity. Qed.

Lemma rejected_before_predict `{L : Libm} (st : ServiceState) (now : datetime)
    (b : RequestBody) :
  validation_errors b <> [] ->
  post_predict st now b = (inl (RequestValidationError (validation_errors b)), []).
Proof.
  intros Hne. unfold post_predict. rewrite (validate_errors b Hne). reflexivity.
Qed.

(** C3.  A body whose amount is at most 0 fails validation with a
    "not greater than 0" error on [amount]: the route answers with the validation
    error (status 422) and passes nothing to the classifier, whatever the state
    of the service and the other fields.  An amount above 0 raises no error on
    that field. *)
Theorem amount_validation `{L : Libm} (st : ServiceState) (now : datetime)
    (body : RequestBody) (a : float) :
  body_amount body = Valid a ->
  ((a <=? 0)%float = true ->
     exists errs,
       validate body = inl (RequestValidationError errs)
       /\ NotGreaterThan "amount" 0 ∈ errs
       /\ post_predict st now body = (inl (RequestValidationError errs), [])
       /\ status_of (RequestValidationError errs) = 422)
  /\ ((0 <? a)%float = true -> check_amount (body_amount body) = []).
Proof.
  intros Hb. split.
  - intros Ha. exists (validation_errors body).
    assert (Hin : NotGreaterThan "amount" 0 ∈ validation_errors body).
    { unfold validation_errors. rewrite Hb, (check_amount_rejects a Ha).
      apply list_elem_of_here. }
    assert (Hne : validation_errors body <> []).
    { intros E. rewrite E in Hin. inversion Hin. }
    split; [exact (validate_errors body Hne)|].
    split; [exact Hin|].
    split; [exact (rejected_before_predict st now body Hne)|reflexivity].
  - intros Ha. rewrite Hb. unfold check_amount, gt_zero. rewrite Ha. reflexivity.
Qed.

Lemma amount_validation_sample :
  post_predict (L := libm_small_angle) sample_state sample_now
    {| body_amount := Valid 0%float; body_merchant := Valid "fraud_Acme"%string;
       body_category := Valid "grocery_pos"%string; body_city := Valid "Omaha"%string |}
    = (inl (RequestValidationError [NotGreaterThan "amount" 0]), [])
  /\ check_amount (Valid 120.5%float) = [].
Proof.
  split.
  - destruct (proj1 (amount_validation (L := libm_small_angle) sample_state sample_now
                       {| body_amount := Valid 0%float;
                          body_merchant := Valid "fraud_Acme"%string;
                          body_category := Valid "grocery_pos"%string;
                          body_city := Valid "Omaha"%string |} 0%float eq_refl)
                eq_refl)
      as (errs & Hv & _ & Hp & _).
    injection Hv as <-. exact Hp.
  - exact (proj2 (amount_validation (L := libm_small_angle) sample_state sample_now
                    {| body_amount := Valid 120.5%float; body_merchant := Absent;
                       body_category := Absent; body_city := Absent |} 120.5%float
                    eq_refl)
             eq_refl).
Defined.

(** C2, as the code has it.  An empty string is a string: the body whose
    merchant, category and city are all "" validates, and its request reaches
    the classifier like any other. *)
Lemma empty_strings_accepted :
  validate empty_strings_body = inr empty_strings_txn
  /\ exists df,
       (post_predict (L := libm_small_angle) sample_state sample_now
          empty_strings_body).2 = [df].
Proof. split; [reflexivity|]. eexists. vm_compute. reflexivity. Qed.

(** C2, amended.  The three string fields are required to be present, with no
    constraint on their content: a body with a positive amount and any three
    strings, empty ones included, validates into the request of those four
    values and is handed to [predict]; a body in which merchant, category or
    city is missing, or holds a value that is not accepted as a string, fails
    validation and passes nothing to the classifier. *)
Theorem string_fields_required `{L : Libm} (st : ServiceState) (now : datetime)
    (a : float) (m c ci : string) :
  (0 <? a)%float = true ->
  validate {| body_amount := Valid a; body_merchant := Valid m;
              body_category := Valid c; body_city := Valid ci |}
    = inr {| amount := a; merchant := m; category := c; city := ci |}
  /\ post_predict st now {| body_amount := Valid a; body_merchant := Valid m;
                            body_category := Valid c; body_city := Valid ci |}
     = predict st now {| amount := a; merchant := m; category := c; city := ci |}
  /\ forall om oc oci,
       (forall s, om <> Valid s) \/ (forall s, oc <> Valid s)
       \/ (forall s, oci <> Valid s) ->
       exists errs,
         errs <> []
         /\ validate {| body_amount := Valid a; body_merchant := om;
                        body_category := oc; body_city := oci |}
            = inl (RequestValidationError errs)
         /\ post_predict st now {| body_amount := Valid a; body_merchant := om;
                                   body_category := oc; body_city := oci |}
            = (inl (RequestValidationError errs), []).
Proof.
  intros Ha. pose proof (validate_present a m c ci Ha) as Hv.
  split; [exact Hv|]. split.
  - unfold post_predict. rewrite Hv. reflexivity.
  - intros om oc oci Hmiss.
    set (b := {| body_amount := Valid a; body_merchant := om;
                 body_category := oc; body_city := oci |}).
    assert (Hne : validation_errors b <> []).
    { unfold validation_errors, b. cbn [body_amount body_merchant body_category body_city].
      intros E. apply app_eq_nil in E as [_ E]. apply app_eq_nil in E as [E1 E].
      apply app_eq_nil in E as [E2 E3].
      destruct Hmiss as [Hn | [Hn | Hn]];
        [ destruct om as [| |s] | destruct oc as [| |s] | destruct oci as [| |s] ];
        try discriminate; exact (Hn s eq_refl). }
    exists (validation_errors b).
    split; [exact Hne|].
    split; [exact (validate_errors b Hne)|exact (rejected_before_predict st now b Hne)].
Qed.

Lemma string_fields_required_sample :
  (0 <? 12.5)%float = true
  /\ validate empty_strings_body = inr empty_strings_txn
  /\ post_predict (L := libm_small_angle) sample_state sample_now empty_strings_body
     = predict (L := libm_small_angle) sample_state sample_now empty_strings_txn
  /\ post_predict (L := libm_small_angle) sample_state sample_now
       {| body_amount := Valid 12.5%float; body_merchant := Valid ""%string;
          body_category := Invalid; body_city := Absent |}
     = (inl (RequestValidationError [WrongType "category"; Missing "city"]), []).
Proof.
  destruct (string_fields_required (L := libm_small_angle) sample_state sample_now
              12.5%float "" "" "" eq_refl)
    as (H1 & H2 & H3).
  split; [reflexivity|]. split; [exact H1|]. split; [exact H2|].
  destruct (H3 (Valid ""%string) Invalid Absent) as (errs & _ & Hv & Hp).
  - right. left. discriminate.
  - injection Hv as <-. exact Hp.
Defined.
End PredictionRoute.

(** ** The table of [Binary64.libm_table] is correctly rounded *)

Section Enclosures.
Import Binary64.
Local Open Scope R_scope.

Lemma Q2R_inject_Z (z : Z) : Q2R (inject_Z z) = IZR z.
Proof. unfold Q2R, inject_Z. simpl. field. Qed.

Lemma Q2R_qpow (q : Q) (n : nat) : Q2R (qpow q n) = Q2R q ^ n.
Proof.
  induction n as [|n IH]; simpl.
  - apply (Q2R_inject_Z 1).
  - rewrite Q2R_mult, IH. reflexivity.
Qed.

Lemma zfact_pos (n : nat) : (0 < zfact n)%Z.
Proof. induction n as [|n IH]; simpl zfact; lia. Qed.

Lemma INR_fact (n : nat) : INR (fact n) = Q2R (inject_Z (zfact n)).
Proof.
  rewrite Q2R_inject_Z. induction n as [|n IH].
  - reflexivity.
  - change (fact (S n)) with (S n * fact n)%nat.
    change (zfact (S n)) with (Z.of_nat (S n) * zfact n)%Z.
    rewrite mult_INR, mult_IZR, IH, <- INR_IZR_INZ. reflexivity.
Qed.

Lemma zfact_nonzero (n : nat) : ~ (inject_Z (zfact n) == 0)%Q.
Proof.
  intros E. apply (inject_Z_injective (zfact n) 0) in E.
  pose proof (zfact_pos n). lia.
Qed.

Lemma sin_term_Q2R (q : Q) (i : nat) : sin_term (Q2R q) i = Q2R (sin_term_Q q i).
Proof.
  unfold sin_term, sin_term_Q.
  rewrite Q2R_mult, Q2R_div by apply zfact_nonzero.
  rewrite !Q2R_qpow, INR_fact. f_equal. f_equal.
  unfold Q2R. simpl. field.
Qed.

Lemma cos_term_Q2R (q : Q) (i : nat) : cos_term (Q2R q) i = Q2R (cos_term_Q q i).
Proof.
  unfold cos_term, cos_term_Q.
  rewrite Q2R_mult, Q2R_div by apply zfact_nonzero.
  rewrite !Q2R_qpow, INR_fact. f_equal. f_equal.
  unfold Q2R. simpl. field.
Qed.

Lemma sum_Q2R (f : nat -> R) (g : nat -> Q) (n : nat) :
  (forall i, f i = Q2R (g i)) -> sum_f_R0 f n = Q2R (sum_Q g n).
Proof.
  intros Hfg. induction n as [|n IH]; simpl.
  - apply Hfg.
  - rewrite Q2R_plus, IH, Hfg. reflexivity.
Qed.

(** The sine of a rational between 0 and 4 lies between two partial sums. *)
Lemma sin_enclosure (q lo hi : Q) (n : nat) :
  (0 <= q)%Q -> (q <= 4)%Q ->
  (lo <= sum_Q (sin_term_Q q) (2 * n + 1))%Q ->
  (sum_Q (sin_term_Q q) (2 * (n + 1)) <= hi)%Q ->
  Q2R lo <= sin (Q2R q) <= Q2R hi.
Proof.
  intros H0 H4 Hlo Hhi.
  apply Qle_Rle in H0, H4, Hlo, Hhi.
  change (Q2R 0) with (Q2R (inject_Z 0)) in H0.
  change (Q2R 4) with (Q2R (inject_Z 4)) in H4.
  rewrite Q2R_inject_Z in H0, H4.
  destruct (pre_sin_bound (Q2R q) n H0 H4) as [Hl Hu].
  unfold sin_approx in Hl, Hu.
  rewrite (sum_Q2R _ _ _ (sin_term_Q2R q)) in Hl.
  rewrite (sum_Q2R _ _ _ (sin_term_Q2R q)) in Hu.
  lra.
Qed.

(** The cosine of a rational between -2 and 2 lies between two partial sums. *)
Lemma cos_enclosure (q lo hi : Q) (n : nat) :
  (-2 <= q)%Q -> (q <= 2)%Q ->
  (lo <= sum_Q (cos_term_Q q) (2 * n + 1))%Q ->
  (sum_Q (cos_term_Q q) (2 * (n + 1)) <= hi)%Q ->
  Q2R lo <= cos (Q2R q) <= Q2R hi.
Proof.
  intros H0 H2 Hlo Hhi.
  apply Qle_Rle in H0, H2, Hlo, Hhi.
  change (Q2R (-2)) with (Q2R (inject_Z (-2))) in H0.
  change (Q2R 2) with (Q2R (inject_Z 2)) in H2.
  rewrite Q2R_inject_Z in H0, H2.
  destruct (pre_cos_bound (Q2R q) n H0 H2) as [Hl Hu].
  unfold cos_approx in Hl, Hu.
  rewrite (sum_Q2R _ _ _ (cos_term_Q2R q)) in Hl.
  rewrite (sum_Q2R _ _ _ (cos_term_Q2R q)) in Hu.
  lra.
Qed.
End Enclosures.

Section TableRounding.
Import PrimFloat Binary64.
Local Open Scope R_scope.

Ltac decide_Qle := apply Qle_bool_imp_le; vm_compute; reflexivity.
Ltac decide_Qeq := apply Qeq_eqR; vm_compute; reflexivity.

Lemma sin_r8_nearest :
  nearest (sin (Q2R (B2Q 0x1.1df46a2529d39p-3%float))) 0x1.1d06c968d9e19p-3%float.
Proof. unfold nearest. apply (sin_enclosure _ _ _ 3); decide_Qle. Qed.

Lemma sin_neg_r8_nearest :
  nearest (sin (Q2R (B2Q (-0x1.1df46a2529d39p-3)%float)))
    (-0x1.1d06c968d9e19p-3)%float.
Proof.
  unfold nearest.
  replace (Q2R (B2Q (-0x1.1df46a2529d39p-3)%float))
    with (- Q2R (B2Q 0x1.1df46a2529d39p-3%float))
    by (rewrite <- Q2R_opp; decide_Qeq).
  rewrite sin_neg.
  set (lo := ((B2Q (next_down (-0x1.1d06c968d9e19p-3)%float)
               + B2Q (-0x1.1d06c968d9e19p-3)%float) / 2)%Q).
  set (hi := ((B2Q (-0x1.1d06c968d9e19p-3)%float
               + B2Q (next_up (-0x1.1d06c968d9e19p-3)%float)) / 2)%Q).
  destruct (sin_enclosure (B2Q 0x1.1df46a2529d39p-3%float) (- hi) (- lo) 3)
    as [Hl Hu]; try decide_Qle.
  rewrite Q2R_opp in Hl, Hu. lra.
Qed.

Lemma cos_r8_nearest :
  nearest (cos (Q2R (B2Q 0x1.1df46a2529d39p-3%float))) 0x1.fb046a930947ap-1%float.
Proof. unfold nearest. apply (cos_enclosure _ _ _ 3); decide_Qle. Qed.

Lemma cos_neg_r8_nearest :
  nearest (cos (Q2R (B2Q (-0x1.1df46a2529d39p-3)%float))) 0x1.fb046a930947ap-1%float.
Proof.
  replace (Q2R (B2Q (-0x1.1df46a2529d39p-3)%float))
    with (- Q2R (B2Q 0x1.1df46a2529d39p-3%float))
    by (rewrite <- Q2R_opp; decide_Qeq).
  rewrite cos_neg. exact cos_r8_nearest.
Qed.

Lemma sin_half_pi_nearest :
  nearest (sin (Q2R (B2Q 0x1.921fb54442d18p+0%float))) 1%float.
Proof. unfold nearest. apply (sin_enclosure _ _ _ 5); decide_Qle. Qed.

Lemma square_nearest :
  nearest (Q2R (B2Q (-0x1.1d06c968d9e19p-3)%float) ^ 2) 0x1.3d581ca184804p-6%float
  /\ nearest (Q2R (B2Q 1%float) ^ 2) 1%float.
Proof.
  unfold nearest. split.
  - replace (Q2R (B2Q (-0x1.1d06c968d9e19p-3)%float) ^ 2)
      with (Q2R (B2Q (-0x1.1d06c968d9e19p-3)%float * B2Q (-0x1.1d06c968d9e19p-3)%float))
      by (rewrite Q2R_mult; ring).
    split; apply Qle_Rle; decide_Qle.
  - replace (Q2R (B2Q 1%float) ^ 2) with (Q2R (B2Q 1%float * B2Q 1%float))
      by (rewrite Q2R_mult; ring).
    split; apply Qle_Rle; decide_Qle.
Qed.

(** Every entry of the table is a double nearest to the exact sine, cosine or
    square of the number its argument stands for: a C library that rounds
    correctly at these six arguments returns these six values. *)
Theorem libm_table_correctly_rounded :
  let r8 := 0x1.1df46a2529d39p-3%float in
  let s8 := 0x1.1d06c968d9e19p-3%float in
  let half_pi := 0x1.921fb54442d18p+0%float in
  nearest (sin (Q2R (B2Q (- r8)%float))) (@m_sin libm_table (- r8)%float)
  /\ nearest (cos (Q2R (B2Q r8))) (@m_cos libm_table r8)
  /\ nearest (cos (Q2R (B2Q (- r8)%float))) (@m_cos libm_table (- r8)%float)
  /\ nearest (sin (Q2R (B2Q half_pi))) (@m_sin libm_table half_pi)
  /\ nearest (Q2R (B2Q (- s8)%float) ^ 2) (@m_pow libm_table (- s8)%float 2%float)
  /\ nearest (Q2R (B2Q 1%float) ^ 2) (@m_pow libm_table 1%float 2%float).
Proof.
  cbv zeta.
  split; [exact sin_neg_r8_nearest|].
  split; [exact cos_r8_nearest|].
  split; [exact cos_neg_r8_nearest|].
  split; [exact sin_half_pi_nearest|].
  exact square_nearest.
Qed.
End TableRounding.

(** ** The distance helper in binary64 *)

Section Binary64Facts.
Import PrimFloat Binary64.
Local Open Scope float_scope.
Context (L : Libm).

(** C10, on the code's own numbers.  In binary64 the bound [a <= 1] does not
    survive rounding.  For the antipodal points (8, 0) and (-8, 180), with a C
    library that returns the correctly rounded sine, cosine and square at the
    six arguments that occur (the values of [libm_table]), the two rounded
    terms of [a] add up to [0x1.0000000000001p+0], the double just above 1;
    [1 - a] is then negative, [math.sqrt] raises, and [haversine] returns no
    distance. *)
Theorem haversine_binary64_domain_error :
  m_sin (-0x1.1df46a2529d39p-3) = -0x1.1d06c968d9e19p-3 ->
  m_cos 0x1.1df46a2529d39p-3 = 0x1.fb046a930947ap-1 ->
  m_cos (-0x1.1df46a2529d39p-3) = 0x1.fb046a930947ap-1 ->
  m_sin 0x1.921fb54442d18p+0 = 1 ->
  m_pow (-0x1.1d06c968d9e19p-3) 2 = 0x1.3d581ca184804p-6 ->
  m_pow 1 2 = 1 ->
  haversine_a (radians 8) (radians 0) (radians (-8)) (radians 180)
    = 0x1.0000000000001p+0
  /\ (1 <? 0x1.0000000000001p+0) = true
  /\ math_sqrt (1 - 0x1.0000000000001p+0) = None
  /\ haversine 8 0 (-8) 180 = None.
Proof.
  intros Hs Hc Hc' Hs1 Hp Hp1.
  assert (Ea : haversine_a (radians 8) (radians 0) (radians (-8)) (radians 180)
               = 0x1.0000000000001p+0).
  { cbv - [m_sin m_cos m_pow m_atan2].
    rewrite Hs, Hc, Hc', Hs1, Hp, Hp1. reflexivity. }
  split; [exact Ea|]. split; [reflexivity|]. split; [reflexivity|].
  unfold haversine. cbv zeta. rewrite Ea. reflexivity.
Qed.
End Binary64Facts.

Section Binary64Table.
Import PrimFloat Binary64.
Local Open Scope float_scope.

Lemma haversine_binary64_domain_error_table :
  @haversine libm_table 8 0 (-8) 180 = None.
Proof.
  exact (proj2 (proj2 (proj2
    (haversine_binary64_domain_error libm_table
       eq_refl eq_refl eq_refl eq_refl eq_refl eq_refl)))).
Defined.
End Binary64Table.

(** ** Symmetry of the distance helper in binary64 *)

Section Binary64Symmetry.
Import PrimFloat FloatOps FloatAxioms SpecFloat Binary64.
Local Open Scope float_scope.

(** The sign given to a rounding only labels its result. *)
Lemma binary_round_aux_negb (s : bool) (m e : Z) (l : location) :
  binary_round_aux prec emax (negb s) m e l = SFopp (binary_round_aux prec emax s m e l).
Proof.
  unfold binary_round_aux.
  destruct (shr_fexp prec emax m e l) as [mrs' e'].
  destruct (shr_fexp prec emax _ e' loc_Exact) as [mrs'' e''].
  destruct (shr_m mrs''); [reflexivity | | reflexivity].
  destruct (Z.leb e'' (emax - prec)); reflexivity.
Qed.

Lemma binary_round_negb (s : bool) (m : positive) (e : Z) :
  binary_round prec emax (negb s) m e = SFopp (binary_round prec emax s m e).
Proof.
  unfold binary_round.
  destruct (shl_align m e _) as [mz ez]. apply binary_round_aux_negb.
Qed.

Lemma binary_normalize_opp (m e : Z) :
  m <> 0%Z ->
  binary_normalize prec emax (- m) e false = SFopp (binary_normalize prec emax m e false).
Proof.
  intros Hm. destruct m as [|p|p]; [contradiction| |]; cbn [Z.opp binary_normalize].
  - apply (binary_round_negb false).
  - apply (binary_round_negb true).
Qed.

(** Swapping the operands of a subtraction negates the difference, unless the
    difference is the same both ways (a positive zero, or not a number). *)
Lemma SFsub_swap (x y : spec_float) :
  SFsub prec emax y x = SFopp (SFsub prec emax x y)
  \/ SFsub prec emax y x = SFsub prec emax x y.
Proof.
  destruct x as [sx|sx| |sx mx ex], y as [sy|sy| |sy my ey];
    try (destruct sx, sy; cbn; auto; fail);
    try (destruct sx; cbn; auto; fail);
    try (destruct sy; cbn; auto; fail);
    try (cbn; auto; fail).
  unfold SFsub. rewrite (Z.min_comm ey ex).
  set (ez := Z.min ex ey).
  set (A := cond_Zopp sx (Zpos (fst (shl_align mx ex ez)))).
  set (B := cond_Zopp sy (Zpos (fst (shl_align my ey ez)))).
  destruct (Z.eq_dec (A - B)%Z 0%Z) as [E | NE].
  - right. replace (B - A)%Z with 0%Z by lia. rewrite E. reflexivity.
  - left. replace (B - A)%Z with (- (A - B))%Z by lia.
    apply binary_normalize_opp, NE.
Qed.

Lemma sub_swap (x y : float) : y - x = - (x - y) \/ y - x = x - y.
Proof.
  destruct (SFsub_swap (Prim2SF x) (Prim2SF y)) as [H | H]; [left | right];
    apply Prim2SF_inj; rewrite ?opp_spec, !sub_spec; exact H.
Qed.

Lemma SFdiv_opp_l (x y : spec_float) :
  SFdiv prec emax (SFopp x) y = SFopp (SFdiv prec emax x y).
Proof.
  destruct x as [sx|sx| |sx mx ex], y as [sy|sy| |sy my ey];
    try (destruct sx, sy; reflexivity); try reflexivity.
  cbn [SFopp SFdiv].
  destruct (SFdiv_core_binary prec emax (Zpos mx) ex (Zpos my) ey) as [[mz ez] lz].
  replace (xorb (negb sx) sy) with (negb (xorb sx sy)) by (destruct sx, sy; reflexivity).
  apply binary_round_aux_negb.
Qed.

Lemma div_opp_l (x y : float) : - x / y = - (x / y).
Proof.
  apply Prim2SF_inj. rewrite div_spec, !opp_spec, div_spec. apply SFdiv_opp_l.
Qed.

Lemma SFmul_comm (x y : spec_float) : SFmul prec emax x y = SFmul prec emax y x.
Proof.
  destruct x as [sx|sx| |sx mx ex], y as [sy|sy| |sy my ey];
    try (destruct sx, sy; reflexivity); try reflexivity.
  cbn [SFmul]. rewrite (Pos.mul_comm my mx), (Z.add_comm ey ex), (xorb_comm sy sx).
  reflexivity.
Qed.

Lemma mul_comm (x y : float) : x * y = y * x.
Proof. apply Prim2SF_inj. rewrite !mul_spec. apply SFmul_comm. Qed.

Lemma mul_opp_opp (x : float) : - x * - x = x * x.
Proof.
  apply Prim2SF_inj. rewrite !mul_spec, !opp_spec.
  destruct (Prim2SF x) as [[]|[]| |[] m e]; reflexivity.
Qed.

(** A finite double is a zero or a signed mantissa and exponent. *)
Lemma is_finite_spec (x : float) :
  is_finite x = true ->
  (exists s, Prim2SF x = S754_zero s) \/ (exists s m e, Prim2SF x = S754_finite s m e).
Proof.
  unfold is_finite, is_nan, is_infinity.
  rewrite !eqb_spec, abs_spec.
  change (Prim2SF infinity) with (S754_infinity false).
  destruct (Prim2SF x) as [s|[]| |s m e]; cbn; try discriminate; eauto.
Qed.

Lemma sub_diag (x : float) : is_finite x = true -> x - x = 0.
Proof.
  intros Hx. apply Prim2SF_inj. rewrite sub_spec.
  change (Prim2SF 0) with (S754_zero false).
  destruct (is_finite_spec x Hx) as [[s ->] | (s & m & e & ->)].
  - destruct s; reflexivity.
  - unfold SF64sub, SFsub. rewrite Z.sub_diag. reflexivity.
Qed.

Lemma mul_zero_r (x : float) : is_finite x = true -> x * 0 = 0 \/ x * 0 = -0.
Proof.
  intros Hx.
  destruct (is_finite_spec x Hx) as [[s E] | (s & m & e & E)].
  - destruct s; [right | left]; apply Prim2SF_inj; rewrite mul_spec, E; reflexivity.
  - destruct s; [right | left]; apply Prim2SF_inj; rewrite mul_spec, E; reflexivity.
Qed.

Context (L : Libm).

(** X3.  In binary64 itself, for every four doubles, the distance from the first
    point to the second is the distance from the second to the first (the same
    double, or the same error), provided the C library's sine is odd and its
    square is even. *)
Theorem haversine_binary64_symmetric (lat1 lon1 lat2 lon2 : float) :
  (forall x, m_sin (- x) = - m_sin x) ->
  (forall x, m_pow (- x) 2 = m_pow x 2) ->
  haversine lat1 lon1 lat2 lon2 = haversine lat2 lon2 lat1 lon1.
Proof.
  intros Hodd Heven.
  assert (Hhalf : forall x y, m_pow (m_sin ((y - x) / 2)) 2 = m_pow (m_sin ((x - y) / 2)) 2).
  { intros x y. destruct (sub_swap x y) as [E | E]; rewrite E; [|reflexivity].
    rewrite div_opp_l, Hodd, Heven. reflexivity. }
  unfold haversine, haversine_a.
  rewrite (Hhalf (radians lat1) (radians lat2)), (Hhalf (radians lon1) (radians lon2)).
  rewrite (mul_comm (m_cos (radians lat1)) (m_cos (radians lat2))).
  reflexivity.
Qed.

(** X4.  In binary64 itself the distance from a point to itself is the double 0,
    for coordinates whose radians are finite, provided the C library gives
    [sin 0 = 0], [pow 0 2 = 0] and [atan2 0 1 = 0] and a cosine whose square
    does not overflow. *)
Theorem haversine_binary64_same (lat lon : float) :
  is_finite (radians lat) = true ->
  is_finite (radians lon) = true ->
  is_finite (m_cos (radians lat) * m_cos (radians lat)) = true ->
  m_sin 0 = 0 ->
  m_pow 0 2 = 0 ->
  m_atan2 0 1 = 0 ->
  haversine lat lon lat lon = Some 0.
Proof.
  intros Hlat Hlon Hcos Hsin Hpow Hatan.
  assert (Ea : haversine_a (radians lat) (radians lon) (radians lat) (radians lon) = 0).
  { unfold haversine_a. rewrite (sub_diag _ Hlat), (sub_diag _ Hlon).
    change (0 / 2) with 0. rewrite Hsin, Hpow.
    destruct (mul_zero_r _ Hcos) as [-> | ->]; reflexivity. }
  unfold haversine. cbv zeta. rewrite Ea.
  change (math_sqrt 0) with (Some 0). change (math_sqrt (1 - 0)) with (Some 1).
  cbn [mbind option_bind]. rewrite Hatan. reflexivity.
Qed.
End Binary64Symmetry.

Section Binary64SymmetrySample.
Import PrimFloat Binary64.
Local Open Scope float_scope.

Lemma haversine_binary64_same_sample :
  @haversine libm_small_angle 41.25 (-95.75) 41.25 (-95.75) = Some 0.
Proof.
  apply (haversine_binary64_same libm_small_angle); reflexivity.
Defined.

Lemma haversine_binary64_symmetric_sample :
  @haversine libm_small_angle 41.25 (-95.75) 39.5 (-98.5)
    = @haversine libm_small_angle 39.5 (-98.5) 41.25 (-95.75).
Proof.
  apply (haversine_binary64_symmetric libm_small_angle).
  - intros x. reflexivity.
  - intros x. apply mul_opp_opp.
Defined.
End Binary64SymmetrySample.

(** ** The score in binary64 *)

Section Binary64Rounding.
Import PrimFloat FloatOps FloatAxioms SpecFloat Binary64.

(** One shift halves a nonnegative mantissa, clears the round bit of an even
    one, and folds the old round bit into the sticky bit. *)
Lemma shr_1_m (m : Z) (r s : bool) :
  0 <= m -> shr_m (shr_1 (Build_shr_record m r s)) = m / 2.
Proof.
  intros Hm. destruct m as [|[p|p|]|p]; [reflexivity | | | reflexivity | lia];
    cbn [shr_1 shr_m].
  - change (Zpos p~1) with (2 * Zpos p + 1). apply (Z.div_unique _ 2 _ 1); lia.
  - change (Zpos p~0) with (2 * Zpos p). apply (Z.div_unique _ 2 _ 0); lia.
Qed.

Lemma shr_1_r (m : Z) (r s : bool) :
  0 <= m -> m mod 2 = 0 -> shr_r (shr_1 (Build_shr_record m r s)) = false.
Proof.
  intros Hm He. destruct m as [|[p|p|]|p]; [reflexivity | | reflexivity | | lia];
    exfalso.
  - change (Zpos p~1) with (2 * Zpos p + 1) in He.
    rewrite Z.add_comm, Z.mul_comm, Z.mod_add in He by lia. discriminate.
  - discriminate.
Qed.

Lemma shr_1_s (m : Z) (r s : bool) :
  shr_s (shr_1 (Build_shr_record m r s)) = orb r s.
Proof. destruct m as [|[p|p|]|[p|p|]]; reflexivity. Qed.

Lemma shifted_step (m0 k : Z) (mrs : shr_record) :
  0 <= m0 -> 0 <= k -> shifted m0 k mrs -> shifted m0 (k + 1) (shr_1 mrs).
Proof.
  intros Hm Hk [Hv He]. destruct mrs as [m r s]. cbn [shr_m shr_r shr_s] in *.
  assert (Hpos : 0 < 2 ^ k) by (apply Z.pow_pos_nonneg; lia).
  assert (Hm' : 0 <= m) by (rewrite Hv; apply Z.div_pos; lia).
  split.
  - rewrite shr_1_m by exact Hm'. rewrite Hv, Z.pow_add_r, Z.pow_1_r by lia.
    rewrite Z.div_div by lia. reflexivity.
  - intros Hdiv. rewrite Z.pow_add_r, Z.pow_1_r in Hdiv by lia.
    assert (Hk0 : m0 mod 2 ^ k = 0).
    { rewrite Z.rem_mul_r in Hdiv by lia. 
      pose proof (Z.mod_pos_bound m0 (2^k) Hpos). pose proof (Z.mod_pos_bound (m0 / 2^k) 2). nia. }
    destruct (He Hk0) as [-> ->].
    split; [|rewrite shr_1_s; reflexivity].
    apply shr_1_r; [exact Hm'|].
    rewrite Hv. rewrite Z.rem_mul_r in Hdiv by lia.
    pose proof (Z.mod_pos_bound (m0 / 2^k) 2). nia.
Qed.

Lemma shifted_iter (n : positive) :
  forall (m0 k : Z) (mrs : shr_record),
  0 <= m0 -> 0 <= k -> shifted m0 k mrs -> shifted m0 (k + Zpos n) (iter_pos shr_1 n mrs).
Proof.
  induction n as [n IH | n IH |]; intros m0 k mrs Hm Hk H; cbn [iter_pos].
  - replace (k + Zpos n~1) with (((k + 1) + Zpos n) + Zpos n) by lia.
    apply IH; [lia|lia|]. apply IH; [lia|lia|]. apply shifted_step; assumption.
  - replace (k + Zpos n~0) with ((k + Zpos n) + Zpos n) by lia.
    apply IH; [lia|lia|]. apply IH; assumption.
  - apply shifted_step; assumption.
Qed.

Lemma shifted_init (m0 : Z) : shifted m0 0 (Build_shr_record m0 false false).
Proof. split; cbn; [rewrite Z.div_1_r; reflexivity | auto]. Qed.

(** One call to [shr] on an exact record: the new exponent, and the state of
    the mantissa shifted to it. *)
Lemma shr_spec (m e n : Z) :
  0 <= m ->
  let '(mrs, e') := shr (Build_shr_record m false false) e n in
  e' = Z.max e (e + n) /\ shifted m (e' - e) mrs.
Proof.
  intros Hm. unfold shr. destruct n as [|n|n].
  - split; [lia|]. rewrite Z.sub_diag. apply shifted_init.
  - split; [lia|]. replace (e + Zpos n - e) with (0 + Zpos n) by lia.
    apply shifted_iter; [exact Hm | lia | apply shifted_init].
  - split; [lia|]. rewrite Z.sub_diag. apply shifted_init.
Qed.

Lemma round_nearest_even_le (mx : Z) (lx : location) :
  mx <= round_nearest_even mx lx <= mx + 1.
Proof. destruct lx as [|[]]; cbn; try lia. destruct (Z.even mx); lia. Qed.

Lemma loc_exact (mrs : shr_record) :
  shr_r mrs = false -> shr_s mrs = false -> loc_of_shr_record mrs = loc_Exact.
Proof. destruct mrs as [m [] []]; cbn; intros; congruence. Qed.

(** Rounding to nearest does not cross an integer bound. *)
Lemma shifted_round_le (m d K : Z) (mrs : shr_record) :
  0 <= m -> 0 <= d -> shifted m d mrs -> m <= K * 2 ^ d ->
  0 <= round_nearest_even (shr_m mrs) (loc_of_shr_record mrs) <= K.
Proof.
  intros Hm Hd [Hv He] HK.
  assert (HP : 0 < 2 ^ d) by (apply Z.pow_pos_nonneg; lia).
  pose proof (round_nearest_even_le (shr_m mrs) (loc_of_shr_record mrs)) as [Hlo Hhi].
  pose proof (Z.div_mod m (2 ^ d) ltac:(lia)) as Hdm.
  pose proof (Z.mod_pos_bound m (2 ^ d) HP) as Hr.
  assert (Hq : 0 <= m / 2 ^ d) by (apply Z.div_pos; lia).
  split; [lia|].
  destruct (Z.eq_dec (m mod 2 ^ d) 0) as [E | NE].
  - destruct (He E) as [Hr0 Hs0]. rewrite (loc_exact mrs Hr0 Hs0). cbn. nia.
  - nia.
Qed.

Lemma shifted_trunc (m d : Z) (mrs : shr_record) :
  0 <= m -> 0 <= d -> shifted m d mrs -> 0 <= shr_m mrs /\ shr_m mrs * 2 ^ d <= m.
Proof.
  intros Hm Hd [Hv _].
  assert (HP : 0 < 2 ^ d) by (apply Z.pow_pos_nonneg; lia).
  pose proof (Z.div_mod m (2 ^ d) ltac:(lia)) as Hdm.
  pose proof (Z.mod_pos_bound m (2 ^ d) HP) as Hr.
  assert (Hq : 0 <= m / 2 ^ d) by (apply Z.div_pos; lia).
  rewrite Hv. split; nia.
Qed.

Lemma digits2_pos_bounds (p : positive) :
  2 ^ (Zpos (digits2_pos p) - 1) <= Zpos p < 2 ^ Zpos (digits2_pos p).
Proof.
  induction p as [p IH | p IH |]; cbn [digits2_pos].
  - rewrite Pos2Z.inj_succ.
    replace (Z.succ (Zpos (digits2_pos p)) - 1) with (Z.succ (Zpos (digits2_pos p) - 1)) by lia.
    rewrite !Z.pow_succ_r by lia.
    destruct IH as [IH1 IH2]. revert IH1 IH2.
    generalize (2 ^ (Zpos (digits2_pos p) - 1)) (2 ^ Zpos (digits2_pos p)). lia.
  - rewrite Pos2Z.inj_succ.
    replace (Z.succ (Zpos (digits2_pos p)) - 1) with (Z.succ (Zpos (digits2_pos p) - 1)) by lia.
    rewrite !Z.pow_succ_r by lia.
    destruct IH as [IH1 IH2]. revert IH1 IH2.
    generalize (2 ^ (Zpos (digits2_pos p) - 1)) (2 ^ Zpos (digits2_pos p)). lia.
  - cbn. lia.
Qed.

Lemma inject_Z_nonneg (z : Z) : 0 <= z -> (0 <= inject_Z z)%Q.
Proof. intros Hz. change (inject_Z 0 <= inject_Z z)%Q. rewrite <- Zle_Qle. exact Hz. Qed.

Lemma Qpower_2_pos (z : Z) : (0 < Qpower 2 z)%Q.
Proof. apply Qpower_0_lt. reflexivity. Qed.

Lemma inject_Z_pow2 (z : Z) : 0 <= z -> (inject_Z (2 ^ z) == Qpower 2 z)%Q.
Proof. intros Hz. apply (Zpower_Qpower 2 z Hz). Qed.

(** A mantissa bounded at one exponent is bounded as a number. *)
Lemma scaled_le (m K e' e'' : Z) :
  e' <= 0 -> e' <= e'' -> m * 2 ^ (e'' - e') <= K * 2 ^ (- e') ->
  (inject_Z m * Qpower 2 e'' <= inject_Z K)%Q.
Proof.
  intros H0 Hle H.
  rewrite Zle_Qle, !inject_Z_mult, !inject_Z_pow2 in H by lia.
  pose proof (Qpower_2_pos e') as Hx.
  assert (E1 : (Qpower 2 e'' == Qpower 2 (e'' - e') * Qpower 2 e')%Q).
  { rewrite <- Qpower_plus by discriminate. replace (e'' - e' + e') with e'' by lia. reflexivity. }
  assert (E2 : (Qpower 2 (- e') * Qpower 2 e' == 1)%Q).
  { rewrite <- Qpower_plus by discriminate. replace (- e' + e') with 0 by lia. reflexivity. }
  rewrite E1.
  apply Qle_trans with (inject_Z K * Qpower 2 (- e') * Qpower 2 e')%Q.
  - rewrite Qmult_assoc. apply Qmult_le_compat_r; [exact H | apply Qlt_le_weak, Hx].
  - rewrite <- Qmult_assoc, E2, Qmult_1_r. apply Qle_refl.
Qed.

(** Rounding a positive product whose exact value is at most the integer [K]
   gives a number between 0 and [K]. *)
Lemma binary_round_aux_le (M : positive) (E K : Z) :
  E <= 0 ->
  Zpos (digits2_pos M) + E <= prec ->
  Zpos M <= K * 2 ^ (- E) ->
  (0 <= SF2Q (binary_round_aux prec emax false (Zpos M) E loc_Exact) <= inject_Z K)%Q.
Proof.
  intros HE Hdig HK.
  assert (HK0 : 0 < K).
  { assert (0 < 2 ^ (- E)) by (apply Z.pow_pos_nonneg; lia). nia. }
  unfold binary_round_aux, shr_fexp.
  pose proof (shr_spec (Zpos M) E (fexp prec emax (Zdigits2 (Zpos M) + E) - E) ltac:(lia)) as H1.
  destruct (shr _ E _) as [mrs' e']. destruct H1 as [He' Hsh'].
  assert (He0 : E <= e' <= 0).
  { rewrite He'. cbn [Zdigits2]. unfold fexp, emin, prec, emax in *. lia. }
  set (K' := K * 2 ^ (- e')).
  assert (HM : Zpos M <= K' * 2 ^ (e' - E)).
  { unfold K'. rewrite <- Z.mul_assoc, <- Z.pow_add_r by lia.
    replace (- e' + (e' - E)) with (- E) by lia. exact HK. }
  pose proof (shifted_round_le (Zpos M) (e' - E) K' mrs' ltac:(lia) ltac:(lia) Hsh' HM) as Hm1.
  set (m1 := round_nearest_even (shr_m mrs') (loc_of_shr_record mrs')) in *.
  pose proof (shr_spec m1 e' (fexp prec emax (Zdigits2 m1 + e') - e') ltac:(lia)) as H2.
  destruct (shr _ e' _) as [mrs'' e'']. destruct H2 as [He'' Hsh''].
  assert (Hee : e' <= e'') by lia.
  pose proof (shifted_trunc m1 (e'' - e') mrs'' ltac:(lia) ltac:(lia) Hsh'') as [Hm3 Hm3'].
  assert (Hfin : shr_m mrs'' * 2 ^ (e'' - e') <= K * 2 ^ (- e')) by (unfold K' in Hm1; lia).
  destruct (shr_m mrs'') as [|m3|m3] eqn:Em3; cbn [SF2Q].
  - split; [apply Qle_refl|]. apply inject_Z_nonneg. lia.
  - destruct (Z.leb e'' (emax - prec)); cbn [SF2Q].
    + split.
      * apply Qmult_le_0_compat; [|apply Qlt_le_weak, Qpower_2_pos].
        rewrite Qmult_1_l. apply inject_Z_nonneg. lia.
      * rewrite Qmult_1_l. apply (scaled_le (Zpos m3) K e' e''); lia.
    + split; [apply Qle_refl|]. apply inject_Z_nonneg. lia.
  - lia.
Qed.

(** A positive double that is at most 1 has a mantissa [m] and an exponent [e]
    with [m * 2 ^ e <= 1]. *)
Lemma le_one_spec (p : float) (m : positive) (e : Z) :
  Prim2SF p = S754_finite false m e ->
  (p <=? 1)%float = true ->
  e <= -52 /\ Zpos m <= 2 ^ (- e).
Proof.
  intros Ep Hle.
  pose proof (Prim2SF_valid p) as Hv. rewrite Ep in Hv.
  rewrite leb_spec, Ep in Hle.
  change (Prim2SF 1) with (S754_finite false 4503599627370496 (-52)) in Hle.
  unfold SFleb, SFcompare in Hle.
  cbn [valid_binary] in Hv. unfold bounded, canonical_mantissa in Hv.
  apply andb_prop in Hv as [Hc _]. apply Z.eqb_eq in Hc.
  pose proof (digits2_pos_bounds m) as [_ Hm].
  destruct (Z.compare_spec e (-52)) as [-> | Hlt | Hgt]; [| | discriminate].
  - split; [lia|]. change (- -52) with 52. change (2 ^ 52) with 4503599627370496.
    destruct (Pos.compare_cont Eq m 4503599627370496) eqn:Ec; try discriminate.
    + apply (Pos.compare_eq m 4503599627370496) in Ec. subst m. lia.
    + apply (Pos.compare_lt_iff m 4503599627370496) in Ec.
      apply Pos2Z.pos_lt_pos in Ec. lia.
  - split; [lia|].
    assert (Hd : Zpos (digits2_pos m) <= 53) by (unfold fexp, emin, prec, emax in Hc; lia).
    assert (2 ^ Zpos (digits2_pos m) <= 2 ^ (- e)) by (apply Z.pow_le_mono_r; lia).
    lia.
Qed.

Lemma product_binary64_bounds (p : float) :
  (0 <=? p)%float = true -> (p <=? 1)%float = true ->
  (0 <= B2Q (p * 100)%float <= 100)%Q.
Proof.
  intros H0 H1. unfold B2Q. rewrite mul_spec.
  change (Prim2SF 100) with (S754_finite false 7036874417766400 (-46)).
  pose proof H0 as H0'. rewrite leb_spec in H0'.
  change (Prim2SF 0) with (S754_zero false) in H0'.
  pose proof H1 as H1'. rewrite leb_spec in H1'.
  change (Prim2SF 1) with (S754_finite false 4503599627370496 (-52)) in H1'.
  destruct (Prim2SF p) as [s|s| |s m e] eqn:Ep.
  - cbn. split; discriminate.
  - destruct s; cbn in H0', H1'; discriminate.
  - discriminate.
  - destruct s; [cbn in H0'; discriminate|].
    destruct (le_one_spec p m e Ep H1) as [He Hm].
    cbn [SF64mul SFmul xorb].
    change (inject_Z 100) with 100%Q.
    apply (binary_round_aux_le (m * 7036874417766400) (e + -46) 100).
    + lia.
    + assert (HM : Zpos (m * 7036874417766400) <= 100 * 2 ^ (- (e + -46))).
      { rewrite Pos2Z.inj_mul. replace (- (e + -46)) with (- e + 46) by lia.
        rewrite Z.pow_add_r by lia. change (2 ^ 46) with 70368744177664. nia. }
      pose proof (digits2_pos_bounds (m * 7036874417766400)) as [Hd _].
      assert (Hlt : 2 ^ (Zpos (digits2_pos (m * 7036874417766400)) - 1) < 2 ^ (7 - (e + -46))).
      { replace (7 - (e + -46)) with (7 + - (e + -46)) by lia.
        rewrite (Z.pow_add_r 2 7) by lia. change (2 ^ 7) with 128.
        assert (0 < 2 ^ (- (e + -46))) by (apply Z.pow_pos_nonneg; lia). nia. }
      apply Z.pow_lt_mono_r_iff in Hlt; unfold prec; lia.
    + rewrite Pos2Z.inj_mul. replace (- (e + -46)) with (- e + 46) by lia.
      rewrite Z.pow_add_r by lia. change (2 ^ 46) with 70368744177664. nia.
Qed.

(** X6.  In binary64 itself the constraint [gt=0] fails on every double that is at
    most 0 (negative zero and minus infinity included) and on the double that
    is not a number. *)
Theorem gt_zero_binary64 (amount : float) :
  ((amount <=? 0)%float = true -> gt_zero amount = false)
  /\ (is_nan amount = true -> gt_zero amount = false).
Proof.
  unfold gt_zero, is_nan. rewrite ltb_spec, leb_spec, eqb_spec.
  change (Prim2SF 0) with (S754_zero false).
  destruct (Prim2SF amount) as [s|[]| |[] m e]; cbn; split; intros H;
    try reflexivity; try discriminate H.
  (* what is left is the NaN test on a positive number *)
  rewrite Z.compare_refl in H.
  change (PosDef.Pos.compare_cont Eq m m) with (Pos.compare m m) in H.
  rewrite Pos.compare_refl in H. discriminate H.
Qed.

Lemma gt_zero_binary64_sample :
  gt_zero (-0)%float = false /\ gt_zero nan = false.
Proof.
  split.
  - exact (proj1 (gt_zero_binary64 (-0)%float) eq_refl).
  - exact (proj2 (gt_zero_binary64 nan) eq_refl).
Defined.

(** X5.  In binary64 itself, for every double [p] between 0 and 1, the rounded
    product [p * 100] is a double between 0 and 100, and [int(round(p * 100))]
    is an integer between 0 and 100. *)
Theorem risk_score_binary64_bounds (p : float) :
  (0 <=? p)%float = true -> (p <=? 1)%float = true ->
  (0 <= B2Q (p * 100)%float <= 100)%Q /\ 0 <= risk_score_of p <= 100.
Proof.
  intros H0 H1. pose proof (product_binary64_bounds p H0 H1) as Hb.
  split; [exact Hb|]. unfold risk_score_of. apply py_round_between. exact Hb.
Qed.

(** The double nearest to 0.6951 times 100 is the double
    nearest to 69.51, and the score is 70, although 0.6951 is below the double
    nearest to 0.7. *)
Lemma binary64_score_of_0_6951 :
  risk_score_of 0x1.63e425aee6320p-1%float = 70
  /\ (0x1.63e425aee6320p-1 * 100 = 0x1.160a3d70a3d71p+6)%float
  /\ (0x1.63e425aee6320p-1 <? 0x1.6666666666666p-1)%float = true.
Proof. repeat split; vm_compute; reflexivity. Qed.

Lemma risk_score_binary64_bounds_sample :
  (0 <=? 0x1.63e425aee6320p-1)%float = true
  /\ (0x1.63e425aee6320p-1 <=? 1)%float = true
  /\ 0 <= risk_score_of 0x1.63e425aee6320p-1%float <= 100.
Proof.
  split; [reflexivity|]. split; [reflexivity|].
  exact (proj2 (risk_score_binary64_bounds 0x1.63e425aee6320p-1%float eq_refl eq_refl)).
Defined.
End Binary64Rounding.

(** ** The score and the probability of the response *)

Section Scoring.
Import PrimFloat FloatOps FloatAxioms SpecFloat Binary64.

Lemma Zdigits2_le (z k : Z) : 0 <= k -> 0 <= z <= 2 ^ k -> Zdigits2 z <= k + 1.
Proof.
  intros Hk [Hz0 Hz]. destruct z as [|p|p]; cbn [Zdigits2]; [lia | | lia].
  pose proof (digits2_pos_bounds p) as [Hd _].
  assert (Hlt : 2 ^ (Zpos (digits2_pos p) - 1) < 2 ^ (k + 1)).
  { rewrite (Z.pow_add_r 2 k 1) by lia. change (2 ^ 1) with 2.
    assert (0 < 2 ^ k) by (apply Z.pow_pos_nonneg; lia). lia. }
  apply Z.pow_lt_mono_r_iff in Hlt; lia.
Qed.

(** Rounding does not overflow when the number has fewer than 1024 binary
    digits before the point. *)
Lemma binary_round_aux_no_overflow (s : bool) (M : positive) (E : Z) :
  E <= emax - prec ->
  Zpos (digits2_pos M) + E <= 1023 ->
  match binary_round_aux prec emax s (Zpos M) E loc_Exact with
  | S754_zero _ | S754_finite _ _ _ => True
  | _ => False
  end.
Proof.
  intros HE HD.
  unfold binary_round_aux, shr_fexp.
  pose proof (shr_spec (Zpos M) E (fexp prec emax (Zdigits2 (Zpos M) + E) - E) ltac:(lia)) as H1.
  destruct (shr _ E _) as [mrs' e']. destruct H1 as [He' Hsh'].
  cbn [Zdigits2] in He'.
  set (D := Zpos (digits2_pos M)) in *.
  assert (HD0 : 0 < D) by (unfold D; lia).
  assert (He1 : E <= e' <= emax - prec).
  { rewrite He'. unfold fexp, emin, prec, emax in *. lia. }
  assert (Hd : 0 <= e' - E) by lia.
  pose proof (shifted_trunc (Zpos M) (e' - E) mrs' ltac:(lia) Hd Hsh') as [Hq0 Hq].
  pose proof (round_nearest_even_le (shr_m mrs') (loc_of_shr_record mrs')) as [Hr0 Hr1].
  set (m1 := round_nearest_even (shr_m mrs') (loc_of_shr_record mrs')) in *.
  pose proof (digits2_pos_bounds M) as [_ HM]. fold D in HM.
  assert (Hm1 : Zdigits2 m1 + e' <= 1024).
  { destruct (Z.le_gt_cases (e' - E) D) as [Hle | Hgt].
    - assert (Hb : m1 <= 2 ^ (D - (e' - E))).
      { assert (HP : 0 < 2 ^ (e' - E)) by (apply Z.pow_pos_nonneg; lia).
        assert (Hsplit : 2 ^ D = 2 ^ (D - (e' - E)) * 2 ^ (e' - E)).
        { rewrite <- Z.pow_add_r by lia. f_equal. lia. }
        assert (shr_m mrs' < 2 ^ (D - (e' - E))) by nia. lia. }
      pose proof (Zdigits2_le m1 (D - (e' - E)) ltac:(lia) ltac:(lia)). lia.
    - assert (Hb : m1 <= 2 ^ 0).
      { assert (HP : 2 ^ D < 2 ^ (e' - E)) by (apply Z.pow_lt_mono_r; lia).
        assert (shr_m mrs' = 0) by nia. change (2 ^ 0) with 1. lia. }
      pose proof (Zdigits2_le m1 0 ltac:(lia) ltac:(lia)).
      unfold prec, emax in *. lia. }
  pose proof (shr_spec m1 e' (fexp prec emax (Zdigits2 m1 + e') - e') ltac:(lia)) as H2.
  destruct (shr _ e' _) as [mrs'' e'']. destruct H2 as [He'' Hsh''].
  assert (He2 : e' <= e'' <= emax - prec).
  { rewrite He''. unfold fexp, emin, prec, emax in *. lia. }
  pose proof (shifted_trunc m1 (e'' - e') mrs'' ltac:(lia) ltac:(lia) Hsh'') as [Hm3 _].
  destruct (shr_m mrs'') as [|m3|m3]; [exact I | | lia].
  destruct (Z.leb_spec e'' (emax - prec)); [exact I | lia].
Qed.

(** For a probability between 0 and 1 the product [proba * 100] is a number,
    so [int(round(proba * 100))] returns. *)
Lemma int_round_product (p : float) :
  (0 <=? p)%float = true -> (p <=? 1)%float = true ->
  int_round (p * 100)%float = inr (py_round (B2Q (p * 100)%float)).
Proof.
  intros H0 H1. unfold int_round, B2Q. rewrite mul_spec.
  change (Prim2SF 100) with (S754_finite false 7036874417766400 (-46)).
  pose proof H0 as H0'. rewrite leb_spec in H0'.
  change (Prim2SF 0) with (S754_zero false) in H0'.
  pose proof H1 as H1'. rewrite leb_spec in H1'.
  change (Prim2SF 1) with (S754_finite false 4503599627370496 (-52)) in H1'.
  destruct (Prim2SF p) as [s|s| |s m e] eqn:Ep.
  - reflexivity.
  - destruct s; cbn in H0', H1'; discriminate.
  - discriminate.
  - destruct s; [cbn in H0'; discriminate|].
    destruct (le_one_spec p m e Ep H1) as [He Hm].
    cbn [SF64mul SFmul xorb].
    pose proof (binary_round_aux_no_overflow false (m * 7036874417766400) (e + -46)) as Hno.
    destruct (binary_round_aux prec emax false (Zpos (m * 7036874417766400)) (e + -46) loc_Exact);
      try reflexivity; exfalso; apply Hno.
    all: try (unfold prec, emax; lia).
    all: pose proof (digits2_pos_bounds (m * 7036874417766400)) as [Hd _];
      assert (Hlt : 2 ^ (Zpos (digits2_pos (m * 7036874417766400)) - 1) < 2 ^ (53 - e));
      [ rewrite Pos2Z.inj_mul in Hd;
        replace (53 - e) with (- e + 53) by lia;
        rewrite (Z.pow_add_r 2 (- e) 53) by lia;
        change (2 ^ 53) with 9007199254740992;
        assert (0 < 2 ^ (- e)) by (apply Z.pow_pos_nonneg; lia); nia
      | apply Z.pow_lt_mono_r_iff in Hlt; lia ].
Qed.


End Scoring.

(** ** The distance helper: zero and symmetry *)

Section DistanceHelper.
Import PrimFloat FloatOps FloatAxioms SpecFloat Binary64.
Local Open Scope float_scope.

(** C9.  On doubles, with a C library whose sine is odd, whose square is even
    and which gives [sin 0 = 0], [pow 0 2 = 0] and [atan2 0 1 = 0]: the
    distance from a point to itself is the double 0 when the radians of its
    coordinates are finite and the square of the cosine of its latitude is
    finite; and the distance from a first point to a second is the distance
    from the second to the first, the same double or the same error. *)
Theorem haversine_zero_symmetric `{L : Libm} (lat1 lon1 lat2 lon2 : float) :
  (forall x, m_sin (- x) = - m_sin x) ->
  (forall x, m_pow (- x) 2 = m_pow x 2) ->
  m_sin 0 = 0 ->
  m_pow 0 2 = 0 ->
  m_atan2 0 1 = 0 ->
  (is_finite (radians lat1) = true ->
   is_finite (radians lon1) = true ->
   is_finite (m_cos (radians lat1) * m_cos (radians lat1)) = true ->
   haversine lat1 lon1 lat1 lon1 = Some 0)
  /\ haversine lat1 lon1 lat2 lon2 = haversine lat2 lon2 lat1 lon1.
Proof.
  intros Hodd Heven Hsin Hpow Hatan. split.
  - (* equal points: both differences are 0, so [a = 0] and [c = 0] *)
    intros Hlat Hlon Hcos.
    assert (Ea : haversine_a (radians lat1) (radians lon1) (radians lat1) (radians lon1) = 0).
    { unfold haversine_a. rewrite (sub_diag _ Hlat), (sub_diag _ Hlon).
      change (0 / 2) with 0. rewrite Hsin, Hpow.
      destruct (mul_zero_r _ Hcos) as [-> | ->]; reflexivity. }
    unfold haversine. cbv zeta. rewrite Ea.
    change (math_sqrt 0) with (Some 0). change (math_sqrt (1 - 0)) with (Some 1).
    cbn [mbind option_bind]. rewrite Hatan. reflexivity.
  - (* swapped points: the differences change sign, the squares of their
       sines do not, and the product of the cosines commutes *)
    assert (Hhalf : forall x y,
               m_pow (m_sin ((y - x) / 2)) 2 = m_pow (m_sin ((x - y) / 2)) 2).
    { intros x y. destruct (sub_swap x y) as [E | E]; rewrite E; [|reflexivity].
      rewrite div_opp_l, Hodd, Heven. reflexivity. }
    unfold haversine, haversine_a.
    rewrite (Hhalf (radians lat1) (radians lat2)), (Hhalf (radians lon1) (radians lon2)).
    rewrite (mul_comm (m_cos (radians lat1)) (m_cos (radians lat2))).
    reflexivity.
Qed.

Lemma haversine_zero_symmetric_sample :
  @haversine libm_small_angle 41.2565 (-95.9345) 41.2565 (-95.9345) = Some 0
  /\ @haversine libm_small_angle 41.2565 (-95.9345) 39.8283 (-98.5795)
     = @haversine libm_small_angle 39.8283 (-98.5795) 41.2565 (-95.9345).
Proof.
  destruct (haversine_zero_symmetric (L := libm_small_angle)
              41.2565 (-95.9345) 39.8283 (-98.5795))
    as [Hzero Hsym]; try reflexivity.
  - intros x. apply mul_opp_opp.
  - split; [apply Hzero; reflexivity | exact Hsym].
Defined.
End DistanceHelper.

(** * More of the code: startup, the options, and how the routes compose *)

(** ** Grouping, distinct values and sorting *)

(** The group of a key is the rows of that key, in file order; a key without
    a row has no group. *)
Lemma groupby_lookup (key : DatasetRow -> string) (df : list DatasetRow) (k : string) :
  groupby key df !! k =
    match filter (fun r => key r = k) df with
    | [] => None
    | rows => Some rows
    end.
Proof.
  induction df as [|r df IH]; [reflexivity|].
  cbn [groupby foldr]. fold (groupby key df).
  rewrite lookup_partial_alter, filter_cons.
  destruct (decide (key r = k)) as [E | NE].
  - subst k. rewrite IH. destruct (filter _ df); reflexivity.
  - exact IH.
Qed.

Lemma filter_nil_iff (key : DatasetRow -> string) (df : list DatasetRow) (k : string) :
  filter (fun r => key r = k) df = [] <-> forall r, r ∈ df -> key r <> k.
Proof.
  split.
  - intros E r Hr Hk.
    assert (Hin : r ∈ filter (fun r => key r = k) df) by (apply list_elem_of_filter; auto).
    rewrite E in Hin. inversion Hin.
  - intros H. destruct (filter _ df) as [|r rest] eqn:E; [reflexivity|].
    assert (Hin : r ∈ filter (fun r => key r = k) df) by (rewrite E; apply list_elem_of_here).
    apply list_elem_of_filter in Hin as [Hk Hr]. destruct (H r Hr Hk).
Qed.

Lemma unique_elem_of (l : list string) (x : string) : x ∈ unique l <-> x ∈ l.
Proof.
  induction l as [|y l IH]; [reflexivity|].
  cbn [unique]. rewrite !elem_of_cons, list_elem_of_filter, IH.
  destruct (decide (x = y)); tauto.
Qed.

Lemma unique_NoDup (l : list string) : NoDup (unique l).
Proof.
  induction l as [|y l IH]; cbn [unique]; constructor.
  - rewrite list_elem_of_filter. tauto.
  - apply NoDup_filter, IH.
Qed.

Lemma string_compare_trans (c : comparison) (s1 s2 s3 : string) :
  String.compare s1 s2 = c -> String.compare s2 s3 = c -> String.compare s1 s3 = c.
Proof.
  revert s2 s3. induction s1 as [|a1 s1 IH]; intros [|a2 s2] [|a3 s3]; cbn;
    try congruence.
  unfold Ascii.compare.
  destruct (N.compare_spec (Ascii.N_of_ascii a1) (Ascii.N_of_ascii a2)) as [E12 | L12 | G12];
  destruct (N.compare_spec (Ascii.N_of_ascii a2) (Ascii.N_of_ascii a3)) as [E23 | L23 | G23];
    intros H1 H2; try congruence.
  - rewrite E12, E23, N.compare_refl. eapply IH; eassumption.
  - rewrite E12. apply N.compare_lt_iff in L23. rewrite L23. exact H2.
  - rewrite E12. apply N.compare_gt_iff in G23. rewrite G23. exact H2.
  - rewrite <- E23. apply N.compare_lt_iff in L12. rewrite L12. exact H1.
  - assert (L13 : (Ascii.N_of_ascii a1 < Ascii.N_of_ascii a3)%N) by lia.
    apply N.compare_lt_iff in L13. rewrite L13. exact H1.
  - rewrite <- E23. apply N.compare_gt_iff in G12. rewrite G12. exact H1.
  - assert (G13 : (Ascii.N_of_ascii a3 < Ascii.N_of_ascii a1)%N) by lia.
    apply N.compare_gt_iff in G13. rewrite G13. exact H1.
Qed.

#[global] Instance str_le_total : Total str_le.
Proof. intros s1 s2. apply String.leb_total. Qed.

#[global] Instance str_le_antisymm : AntiSymm (=) str_le.
Proof. intros s1 s2. apply String.leb_antisym. Qed.

#[global] Instance str_le_trans : Transitive str_le.
Proof.
  intros s1 s2 s3. unfold str_le, String.leb.
  destruct (String.compare s1 s2) eqn:E12; [| |discriminate];
    destruct (String.compare s2 s3) eqn:E23; try discriminate; intros _ _.
  - apply String.compare_eq_iff in E12. subst. rewrite E23. reflexivity.
  - apply String.compare_eq_iff in E12. subst. rewrite E23. reflexivity.
  - apply String.compare_eq_iff in E23. subst. rewrite E12. reflexivity.
  - rewrite (string_compare_trans Lt s1 s2 s3 E12 E23). reflexivity.
Qed.

Lemma sorted_elem_of (l : list string) (x : string) : x ∈ sorted l <-> x ∈ l.
Proof. unfold sorted. rewrite merge_sort_Permutation. reflexivity. Qed.

Lemma sorted_NoDup (l : list string) : NoDup l -> NoDup (sorted l).
Proof. unfold sorted. rewrite merge_sort_Permutation. auto. Qed.

(** ** The lookup tables built at startup *)

Section StartupTables.
Import PrimFloat FloatOps Binary64.

Lemma city_group_lookup `{P : Pandas} (df : list DatasetRow) (city : string) :
  city_group df !! city = agg_city (filter (fun r => row_city r = city) df).
Proof.
  unfold city_group. rewrite lookup_omap, groupby_lookup.
  destruct (filter _ df); reflexivity.
Qed.

Lemma merch_group_lookup `{P : Pandas} (df : list DatasetRow) (merchant : string) :
  merch_group df !! merchant = agg_merchant (filter (fun r => row_merchant r = merchant) df).
Proof.
  unfold merch_group. rewrite lookup_omap, groupby_lookup.
  destruct (filter _ df); reflexivity.
Qed.

(** X7.  After [startup] on a dataset, the city table has no entry for a city
    exactly when no row of the dataset is of that city; otherwise the entry's
    latitude and longitude are what pandas' mean gives on the columns lat and
    long of the rows of that city, taken in file order, and its state, zip and
    population are those of the first such row. *)
Theorem city_table_from_dataset `{P : Pandas} (loaded : CatBoostClassifier)
    (df : list DatasetRow) (city : string) :
  let st := startup_df loaded df in
  (city_lookup st !! city = None <-> forall r, r ∈ df -> row_city r <> city)
  /\ (forall first rest,
        filter (fun r => row_city r = city) df = first :: rest ->
        city_lookup st !! city =
          Some {| ci_lat := mean (row_lat <$> first :: rest);
                  ci_long := mean (row_long <$> first :: rest);
                  ci_state := row_state first;
                  ci_zip := row_zip first;
                  ci_city_pop := row_city_pop first |}).
Proof.
  cbn [startup_df startup city_lookup]. rewrite city_group_lookup. split.
  - rewrite <- filter_nil_iff. destruct (filter _ df); cbn [agg_city]; split; congruence.
  - intros first rest ->. reflexivity.
Qed.

Lemma city_table_from_dataset_sample :
  city_lookup (startup_df (P := sum_over_length) sample_model sample_rows) !! "Omaha"
    = Some {| ci_lat := 41.5; ci_long := -96; ci_state := "NE";
              ci_zip := Int 68102; ci_city_pop := Int 486051 |}
  /\ city_lookup (startup_df (P := sum_over_length) sample_model sample_rows) !! "Lincoln"
     = None.
Proof.
  destruct (city_table_from_dataset (P := sum_over_length) sample_model sample_rows "Omaha")
    as [_ Hsome].
  destruct (city_table_from_dataset (P := sum_over_length) sample_model sample_rows "Lincoln")
    as [Hnone _].
  split.
  - rewrite (Hsome _ _ eq_refl). reflexivity.
  - apply Hnone. intros r Hr.
    repeat (apply elem_of_cons in Hr as [-> | Hr]; [discriminate|]).
    inversion Hr.
Defined.

(** X8.  After [startup] on a dataset, the merchant table has no entry for a
    merchant exactly when no row of the dataset is of that merchant; otherwise
    the entry's coordinates are what pandas' mean gives on the columns
    merch_lat and merch_long of the rows of that merchant, taken in file
    order. *)
Theorem merchant_table_from_dataset `{P : Pandas} (loaded : CatBoostClassifier)
    (df : list DatasetRow) (merchant : string) :
  let st := startup_df loaded df in
  (merchant_lookup st !! merchant = None <-> forall r, r ∈ df -> row_merchant r <> merchant)
  /\ (forall first rest,
        filter (fun r => row_merchant r = merchant) df = first :: rest ->
        merchant_lookup st !! merchant =
          Some {| mi_merch_lat := mean (row_merch_lat <$> first :: rest);
                  mi_merch_long := mean (row_merch_long <$> first :: rest) |}).
Proof.
  cbn [startup_df startup merchant_lookup]. rewrite merch_group_lookup. split.
  - rewrite <- filter_nil_iff. destruct (filter _ df); cbn [agg_merchant]; split; congruence.
  - intros first rest ->. reflexivity.
Qed.

Lemma merchant_table_from_dataset_sample :
  merchant_lookup (startup_df (P := sum_over_length) sample_model sample_rows)
    !! "fraud_Acme"
    = Some {| mi_merch_lat := 36.25; mi_merch_long := -96.75 |}
  /\ merchant_lookup (startup_df (P := sum_over_length) sample_model sample_rows)
       !! "fraud_Nobody"
     = None.
Proof.
  destruct (merchant_table_from_dataset (P := sum_over_length) sample_model sample_rows
              "fraud_Acme") as [_ Hsome].
  destruct (merchant_table_from_dataset (P := sum_over_length) sample_model sample_rows
              "fraud_Nobody") as [Hnone _].
  split.
  - rewrite (Hsome _ _ eq_refl). reflexivity.
  - apply Hnone. intros r Hr.
    repeat (apply elem_of_cons in Hr as [-> | Hr]; [discriminate|]).
    inversion Hr.
Defined.

(** ** The dropdown lists *)

Lemma sorted_unique_spec (col : DatasetRow -> string) (df : list DatasetRow) :
  let l := sorted (unique (col <$> df)) in
  StronglySorted str_le l /\ NoDup l
  /\ forall x, x ∈ l <-> exists r, r ∈ df /\ col r = x.
Proof.
  cbn zeta. split; [|split].
  - apply (StronglySorted_merge_sort str_le).
  - apply sorted_NoDup, unique_NoDup.
  - intros x. rewrite sorted_elem_of, unique_elem_of, list_elem_of_fmap.
    split; intros (r & H1 & H2); exists r; auto.
Qed.

(** X10.  Each of the three lists [get_options] returns after [startup] on a
    dataset is in ascending order of [str], holds no value twice, and holds a
    value exactly when some row of the dataset has it in the list's column
    (merchant, category, city). *)
Theorem dropdown_lists `{P : Pandas} (loaded : CatBoostClassifier) (df : list DatasetRow) :
  let opts := get_options (startup_df loaded df) in
  (StronglySorted str_le (merchants opts) /\ NoDup (merchants opts)
   /\ forall x, x ∈ merchants opts <-> exists r, r ∈ df /\ row_merchant r = x)
  /\ (StronglySorted str_le (categories opts) /\ NoDup (categories opts)
      /\ forall x, x ∈ categories opts <-> exists r, r ∈ df /\ row_category r = x)
  /\ (StronglySorted str_le (cities opts) /\ NoDup (cities opts)
      /\ forall x, x ∈ cities opts <-> exists r, r ∈ df /\ row_city r = x).
Proof.
  cbn [get_options startup_df startup available_merchants available_categories
       available_cities merchants categories cities].
  split; [|split]; apply sorted_unique_spec.
Qed.

Lemma get_options_sample :
  get_options (startup_df (P := sum_over_length) sample_model sample_rows)
  = {| merchants := ["fraud_Acme"; "fraud_Bode"; "fraud_Kilback"];
       categories := ["gas_transport"; "grocery_pos"; "misc_net"];
       cities := ["Austin"; "Boise"; "Omaha"] |}.
Proof. vm_compute. reflexivity. Qed.

Lemma dropdown_lists_sample :
  let opts := get_options (startup_df (P := sum_over_length) sample_model sample_rows) in
  cities opts = ["Austin"; "Boise"; "Omaha"]
  /\ StronglySorted str_le (cities opts) /\ NoDup (merchants opts)
  /\ "gas_transport" ∈ categories opts.
Proof.
  destruct (dropdown_lists (P := sum_over_length) sample_model sample_rows)
    as ((_ & Hm & _) & (_ & _ & Hcat) & (Hc & _ & _)).
  split; [exact (f_equal cities get_options_sample)|].
  split; [exact Hc|]. split; [exact Hm|].
  apply Hcat.
  exists (mkDatasetRow "fraud_Acme" "gas_transport" "Austin" "TX" (Int 73301)
            30.25 (-97.75) (Int 961855) 30.5 (-97.5)).
  split; [|reflexivity].
  apply list_elem_of_further, list_elem_of_here.
Defined.

Lemma in_options_iff_in_table {A} (tbl : gmap string A) (col : DatasetRow -> string)
    (df : list DatasetRow) :
  (forall k, tbl !! k = None <-> forall r, r ∈ df -> col r <> k) ->
  (forall k, k ∈ sorted (unique (col <$> df)) <-> is_Some (tbl !! k))
  /\ length (sorted (unique (col <$> df))) = size tbl.
Proof.
  intros Htbl.
  assert (Hiff : forall k, k ∈ sorted (unique (col <$> df)) <-> is_Some (tbl !! k)).
  { intros k. rewrite (proj2 (proj2 (sorted_unique_spec col df)) k).
    rewrite <- not_eq_None_Some, Htbl. split.
    - intros (r & Hr & Hk) Hall. exact (Hall r Hr Hk).
    - intros Hn. destruct (decide (k ∈ col <$> df)) as [Hin | Hout].
      + apply list_elem_of_fmap in Hin as (r & -> & Hr). exists r. auto.
      + destruct Hn. intros r Hr Hk. apply Hout. rewrite <- Hk.
        apply list_elem_of_fmap. exists r. auto. }
  split; [exact Hiff|].
  rewrite <- (size_dom (D := gset string)).
  rewrite <- (size_list_to_set (C := gset string)).
  - f_equal. apply set_eq. intros k.
    rewrite elem_of_list_to_set, elem_of_dom. apply Hiff.
  - apply (proj1 (proj2 (sorted_unique_spec col df))).
Qed.

(** X11.  After [startup] on a dataset, the cities [get_options] offers are
    exactly the keys of the city table, and the merchants it offers are exactly
    the keys of the merchant table; each list is as long as its table has
    entries. *)
Theorem options_match_tables `{P : Pandas} (loaded : CatBoostClassifier)
    (df : list DatasetRow) :
  let st := startup_df loaded df in
  (forall c, c ∈ cities (get_options st) <-> is_Some (city_lookup st !! c))
  /\ (forall m, m ∈ merchants (get_options st) <-> is_Some (merchant_lookup st !! m))
  /\ length (cities (get_options st)) = size (city_lookup st)
  /\ length (merchants (get_options st)) = size (merchant_lookup st).
Proof.
  cbn [get_options startup_df startup available_merchants available_cities
       merchants cities city_lookup merchant_lookup].
  destruct (in_options_iff_in_table (city_group df) row_city df) as [Hc Hcl].
  { intros k. rewrite city_group_lookup, <- filter_nil_iff.
    destruct (filter _ df); cbn [agg_city]; split; congruence. }
  destruct (in_options_iff_in_table (merch_group df) row_merchant df) as [Hm Hml].
  { intros k. rewrite merch_group_lookup, <- filter_nil_iff.
    destruct (filter _ df); cbn [agg_merchant]; split; congruence. }
  auto.
Qed.

(** ** From the dataset to the data frame *)

(** X12.  On a service started on a dataset: when the city of a request is one
    [get_options] offers, the columns state, zip and city_pop of every data
    frame [predict] passes to the classifier are those of the first dataset
    row of that city, and its lat and long are what pandas' mean gives on the
    rows of that city; when the city is not offered, the five columns hold the
    fallback values. *)
Theorem offered_city_resolves `{L : Libm} `{P : Pandas} (loaded : CatBoostClassifier)
    (df : list DatasetRow) (now : datetime) (txn : TransactionRequest) :
  let st := startup_df loaded df in
  (city txn ∈ cities (get_options st) ->
     exists first rest,
       filter (fun r => row_city r = city txn) df = first :: rest
       /\ forall d, d ∈ (predict st now txn).2 ->
            column d "state" = Some (CStr (row_state first))
            /\ column d "zip" = Some (CInt (py_int (row_zip first)))
            /\ column d "city_pop" = Some (CInt (py_int (row_city_pop first)))
            /\ column d "lat" = Some (CFloat (mean (row_lat <$> first :: rest)))
            /\ column d "long" = Some (CFloat (mean (row_long <$> first :: rest))))
  /\ (city txn ∉ cities (get_options st) ->
        forall d, d ∈ (predict st now txn).2 ->
          column d "state" = Some (CStr "KS")
          /\ column d "zip" = Some (CInt 66101)
          /\ column d "city_pop" = Some (CInt 50000)
          /\ column d "lat" = Some (CFloat 39.8283)
          /\ column d "long" = Some (CFloat (-98.5795))).
Proof.
  cbn zeta.
  assert (Hl : city_lookup (startup_df loaded df) !! city txn
               = agg_city (filter (fun r => row_city r = city txn) df))
    by apply city_group_lookup.
  assert (Hin : city txn ∈ cities (get_options (startup_df loaded df))
                <-> filter (fun r => row_city r = city txn) df <> []).
  { cbn [get_options startup_df startup available_cities cities].
    rewrite (proj2 (proj2 (sorted_unique_spec row_city df)) (city txn)), filter_nil_iff.
    split.
    - intros (r & Hr & Hk) Hall. exact (Hall r Hr Hk).
    - intros Hn. destruct (decide (city txn ∈ row_city <$> df)) as [Hi | Ho].
      + apply list_elem_of_fmap in Hi as (r & Hk & Hr). exists r. auto.
      + destruct Hn. intros r Hr Hk. apply Ho. rewrite <- Hk.
        apply list_elem_of_fmap. exists r. auto. }
  split.
  - intros Hc. apply Hin in Hc.
    destruct (filter _ df) as [|first rest] eqn:Hf; [contradiction|].
    exists first, rest. split; [reflexivity|]. intros d Hd.
    destruct (predict_calls_inv _ _ _ _ Hd)
      as (clf & lat & lon & state & zipcode & city_pop & mlat & mlong & dist
          & _ & Hres & _ & _ & _ & ->).
    unfold resolve_city in Hres. rewrite Hl in Hres. cbn [agg_city] in Hres.
    injection Hres as <- <- <- <- <-. repeat split.
  - intros Hc. rewrite Hin in Hc.
    destruct (filter _ df) as [|first rest] eqn:Hf; [|destruct Hc; discriminate].
    intros d Hd.
    destruct (predict_calls_inv _ _ _ _ Hd)
      as (clf & lat & lon & state & zipcode & city_pop & mlat & mlong & dist
          & _ & Hres & _ & _ & _ & ->).
    unfold resolve_city in Hres. rewrite Hl in Hres. cbn [agg_city] in Hres.
    injection Hres as <- <- <- <- <-. repeat split.
Qed.

Lemma offered_city_resolves_sample :
  exists d,
    (predict (L := libm_small_angle)
       (startup_df (P := sum_over_length) sample_model sample_rows)
       sample_now sample_txn).2 = [d]
    /\ column d "state" = Some (CStr "NE")
    /\ column d "zip" = Some (CInt 68102)
    /\ column d "city_pop" = Some (CInt 486051)
    /\ column d "lat" = Some (CFloat 41.5).
Proof.
  eexists. split; [vm_compute; reflexivity|].
  destruct (proj1 (offered_city_resolves (L := libm_small_angle) (P := sum_over_length)
                     sample_model sample_rows sample_now sample_txn))
    as (first & rest & Hf & Hcols).
  - rewrite get_options_sample. cbn [cities]. set_solver.
  - injection Hf as <- <-.
    match goal with |- column ?d _ = _ /\ _ => destruct (Hcols d) as (H1 & H2 & H3 & H4 & _) end.
    + vm_compute. apply list_elem_of_here.
    + repeat split; assumption.
Defined.

(** ** The dropdown lists and the order of the rows *)

Lemma sorted_unique_values (col : DatasetRow -> string) (df1 df2 : list DatasetRow) :
  (forall x, x ∈ col <$> df1 <-> x ∈ col <$> df2) ->
  sorted (unique (col <$> df1)) = sorted (unique (col <$> df2)).
Proof.
  intros Hsame.
  destruct (sorted_unique_spec col df1) as (Hs1 & Hn1 & He1).
  destruct (sorted_unique_spec col df2) as (Hs2 & Hn2 & He2).
  apply (StronglySorted_unique str_le); [exact Hs1 | exact Hs2 |].
  apply NoDup_Permutation; [exact Hn1 | exact Hn2 |].
  intros x. rewrite !sorted_elem_of, !unique_elem_of. apply Hsame.
Qed.

(** X20.  The three lists [get_options] returns depend on the dataset only
    through the sets of values of its columns merchant, category and city:
    two datasets with the same values in these columns, in whatever order and
    however often, give the same options, whatever the model. *)
Theorem options_depend_on_values_only `{P : Pandas} (loaded1 loaded2 : CatBoostClassifier)
    (df1 df2 : list DatasetRow) :
  (forall x, x ∈ row_merchant <$> df1 <-> x ∈ row_merchant <$> df2) ->
  (forall x, x ∈ row_category <$> df1 <-> x ∈ row_category <$> df2) ->
  (forall x, x ∈ row_city <$> df1 <-> x ∈ row_city <$> df2) ->
  get_options (startup_df loaded1 df1) = get_options (startup_df loaded2 df2).
Proof.
  intros Hm Hc Hci.
  unfold get_options, startup_df, startup.
  cbn [available_merchants available_categories available_cities].
  rewrite (sorted_unique_values row_merchant df1 df2 Hm),
    (sorted_unique_values row_category df1 df2 Hc),
    (sorted_unique_values row_city df1 df2 Hci).
  reflexivity.
Qed.

Lemma options_depend_on_values_only_sample :
  get_options (startup_df (P := sum_over_length) sample_model sample_rows)
  = get_options (startup_df (P := sum_over_length) (fun _ => 0%float)
                   (reverse sample_rows ++ sample_rows)).
Proof.
  apply options_depend_on_values_only; intros x;
    rewrite fmap_app, fmap_reverse, elem_of_app, elem_of_reverse; tauto.
Defined.
End StartupTables.

(** ** What reaches the classifier, and what comes back *)

Section Discipline.
Import PrimFloat FloatOps Binary64.

Lemma predict_outcomes `{L : Libm} (st : ServiceState) (now : datetime)
    (txn : TransactionRequest) :
  predict st now txn = (inl (HTTPException 503 "Model not loaded yet"), [])
  \/ predict st now txn = (inl (ValueError "math domain error"), [])
  \/ exists clf d,
       model st = Some clf
       /\ (predict st now txn).2 = [d]
       /\ ((exists e, int_round (clf d * 100)%float = inl e
              /\ (predict st now txn).1 = inl e)
           \/ (exists score, int_round (clf d * 100)%float = inr score
                 /\ (predict st now txn).1
                    = inr {| risk_score := score;
                             probability := round_ndigits (clf d) 4;
                             risk_level := (risk_bucket score).1;
                             decision := (risk_bucket score).2 |})).
Proof.
  destruct (model st) as [clf|] eqn:Hm.
  2:{ left. unfold predict. rewrite Hm. reflexivity. }
  destruct (resolve_city (city_lookup st) (city txn))
    as [[[[lat lon] state] zipcode] city_pop] eqn:Hc.
  destruct (resolve_merchant (merchant_lookup st) (merchant txn) lat lon)
    as [merch_lat merch_long] eqn:Hmer.
  destruct (haversine lat lon merch_lat merch_long) as [distance|] eqn:Hd.
  - right. right.
    rewrite (predict_loaded st now txn clf _ _ _ _ _ _ _ _ Hm Hc Hmer Hd).
    eexists clf, _.
    destruct (int_round _) as [e | score] eqn:Hs; cbn [fst snd];
      (split; [reflexivity|]); (split; [reflexivity|]); [left | right]; eauto.
  - right. left. unfold predict. rewrite Hm, Hc, Hmer, Hd. reflexivity.
Qed.

(** X14.  The served route passes at most one data frame to the classifier.
    It passes none when it answers with a validation error, with the 503 of
    the model guard or with the domain error of the distance helper.  When it
    answers with a response, the body validated, the model is loaded, exactly
    one data frame was passed, and the score and the probability of the
    response are [int(round(p * 100))] and [round(p, 4)] of the classifier's
    answer [p] on that data frame.  An exception that follows a call is the
    one [int(round(p * 100))] raises on an answer whose product is not a
    number or is infinite. *)
Theorem classifier_call_discipline `{L : Libm} (st : ServiceState) (now : datetime)
    (body : RequestBody) :
  (length (post_predict st now body).2 <= 1)%nat
  /\ (forall e, (post_predict st now body).1 = inl e ->
        status_of e = 422 \/ status_of e = 503 \/ e = ValueError "math domain error" ->
        (post_predict st now body).2 = [])
  /\ (forall resp, (post_predict st now body).1 = inr resp ->
        exists clf txn d,
          model st = Some clf /\ validate body = inr txn
          /\ (post_predict st now body).2 = [d]
          /\ int_round (clf d * 100)%float = inr (risk_score resp)
          /\ risk_score resp = py_round (B2Q (clf d * 100)%float)
          /\ probability resp = round_ndigits (clf d) 4)
  /\ (forall e d, (post_predict st now body).1 = inl e ->
        (post_predict st now body).2 = [d] ->
        exists clf,
          model st = Some clf /\ int_round (clf d * 100)%float = inl e
          /\ (e = ValueError "cannot convert float NaN to integer"
              \/ e = OverflowError "cannot convert float infinity to integer")).
Proof.
  unfold post_predict. destruct (validate body) as [e0 | txn] eqn:Hv.
  { cbn [fst snd length]. split; [lia|]. split; [reflexivity|].
    split; intros; discriminate. }
  destruct (predict_outcomes st now txn)
    as [Hp | [Hp | (clf & d & Hm & Hcalls & [(e & Hs & Hout) | (score & Hs & Hout)])]].
  - rewrite Hp. cbn [fst snd length]. split; [lia|]. split; [reflexivity|].
    split; intros; discriminate.
  - rewrite Hp. cbn [fst snd length]. split; [lia|]. split; [reflexivity|].
    split; intros; discriminate.
  - rewrite Hcalls, Hout. cbn [length]. split; [lia|].
    destruct (int_round_inl _ _ Hs) as [[_ ->] | (s & _ & ->)].
    + split; [intros e' [= <-] [Hst | [Hst | Hst]]; discriminate Hst|].
      split; [discriminate|].
      intros e' d' [= <-] [= <-]. exists clf. auto.
    + split; [intros e' [= <-] [Hst | [Hst | Hst]]; discriminate Hst|].
      split; [discriminate|].
      intros e' d' [= <-] [= <-]. exists clf. auto.
  - rewrite Hcalls, Hout. cbn [length]. split; [lia|].
    split; [discriminate|]. split; [|discriminate].
    intros resp [= <-]. exists clf, txn, d. cbn [risk_score probability].
    pose proof (int_round_inr _ _ Hs). auto 10.
Qed.

(** The three kinds of run: a body rejected before the guard, a distance
    helper that raises on antipodal points with the table C library, and a
    response after one call. *)
Lemma classifier_call_discipline_sample :
  (post_predict (L := libm_small_angle) initial_state sample_now
     {| body_amount := Invalid; body_merchant := Valid "fraud_Acme"%string;
        body_category := Valid "misc"%string; body_city := Absent |}).2 = []
  /\ predict (L := libm_table) antipodal_state sample_now antipodal_txn
     = (inl (ValueError "math domain error"), [])
  /\ (exists clf d,
        model sample_state = Some clf
        /\ (post_predict (L := libm_small_angle) sample_state sample_now
              {| body_amount := Valid 120.5%float;
                 body_merchant := Valid "fraud_Acme"%string;
                 body_category := Valid "grocery_pos"%string;
                 body_city := Valid "Omaha"%string |}).2 = [d]
        /\ int_round (clf d * 100)%float = inr 70).
Proof.
  split; [|split].
  - apply (proj1 (proj2 (classifier_call_discipline (L := libm_small_angle) initial_state
                           sample_now _))
             (RequestValidationError [WrongType "amount"; Missing "city"])).
    + reflexivity.
    + left. reflexivity.
  - vm_compute. reflexivity.
  - destruct (proj1 (proj2 (proj2 (classifier_call_discipline (L := libm_small_angle)
                                     sample_state sample_now
                                     {| body_amount := Valid 120.5%float;
                                        body_merchant := Valid "fraud_Acme"%string;
                                        body_category := Valid "grocery_pos"%string;
                                        body_city := Valid "Omaha"%string |})))
                sample_response (f_equal fst sample_run))
      as (clf & txn & d & Hm & _ & Hd & Hs & _).
    exists clf, d. auto.
Defined.

Lemma risk_bucket_high_iff (s : Z) : risk_bucket s = ("High", "Block") <-> 70 <= s.
Proof.
  split; [|apply risk_bucket_high].
  unfold risk_bucket. destruct (Z.geb_spec s 70); [auto|].
  destruct (Z.geb_spec s 40); discriminate.
Qed.

Lemma risk_bucket_low_iff (s : Z) : risk_bucket s = ("Low", "Approve") <-> s < 40.
Proof.
  split; [|apply risk_bucket_low].
  unfold risk_bucket. destruct (Z.geb_spec s 70); [discriminate|].
  destruct (Z.geb_spec s 40); [discriminate | lia].
Qed.

Lemma risk_bucket_medium_iff (s : Z) :
  risk_bucket s = ("Medium", "Require OTP") <-> 40 <= s < 70.
Proof.
  split; [|apply risk_bucket_medium].
  unfold risk_bucket. destruct (Z.geb_spec s 70); [discriminate|].
  destruct (Z.geb_spec s 40); [lia | discriminate].
Qed.

(** In terms of the number that is rounded, the two thresholds are 69.5 and
    39.5, both included on the upper side. *)
Lemma risk_bucket_round (x : Q) :
  (risk_bucket (py_round x) = ("High", "Block") <-> (69.5 <= x)%Q)
  /\ (risk_bucket (py_round x) = ("Medium", "Require OTP") <-> (39.5 <= x /\ x < 69.5)%Q)
  /\ (risk_bucket (py_round x) = ("Low", "Approve") <-> (x < 39.5)%Q).
Proof.
  pose proof (py_round_ge_even x 70 eq_refl) as H70.
  pose proof (py_round_ge_even x 40 eq_refl) as H40.
  assert (E70 : (inject_Z 70 - (1 # 2) == 69.5)%Q) by reflexivity.
  assert (E40 : (inject_Z 40 - (1 # 2) == 39.5)%Q) by reflexivity.
  rewrite E70 in H70. rewrite E40 in H40.
  rewrite risk_bucket_high_iff, risk_bucket_medium_iff, risk_bucket_low_iff.
  split; [exact H70|]. split.
  - rewrite H40. split.
    + intros [Ha Hb]. split; [exact Ha|]. apply Qnot_le_lt. intros Hc.
      apply H70 in Hc. lia.
    + intros [Ha Hb]. split; [exact Ha|]. apply Z.nle_gt. intros Hc.
      apply H70 in Hc. Lqa.lra.
  - split.
    + intros Hs. apply Qnot_le_lt. intros Hc. apply H40 in Hc. lia.
    + intros Hx. apply Z.nle_gt. intros Hc. apply H40 in Hc. Lqa.lra.
Qed.


End Discipline.
